(** * kubric/randomness.py: randomized placement helpers

    A shallow embedding of [random_rotation], [rotation_sampler],
    [position_sampler], [resample_while] and [move_until_no_overlap].

    Conventions of the embedding.
    - Python objects are mutable and passed by reference.  The mutable store
      is an explicit [World]; an asset or a random generator is a reference
      into it.  A Python callable is a function from the world before the
      call to an [outcome]: a normal return with the world after the call, a
      raised exception with the world at the raise, or divergence.
    - [float] is idealised as the real numbers: rounding, infinities and NaN
      are not tracked.
    - [while] loops take fuel.  [Diverge] at every fuel means that the loop
      never exits. *)

From Stdlib Require Import Reals Lra List String Ascii ZArith Lia Bool.
Import ListNotations.

Local Open Scope string_scope.

(** ** Exceptions and outcomes *)

(** The exceptions that can cross the functions of this file.  Only
    [RuntimeError] is raised by randomness.py itself; its arguments are the
    message and the asset reference. *)
Inductive exn (Asset : Type) : Type :=
| RuntimeError (msg : string) (asset : Asset)
| ValueError (msg : string)
| TypeError (msg : string)
| KeyError (key : string).

Arguments RuntimeError {Asset} msg asset.
Arguments ValueError {Asset} msg.
Arguments TypeError {Asset} msg.
Arguments KeyError {Asset} key.

Inductive outcome (World Asset A : Type) : Type :=
| Ret (a : A) (w : World)
| Raise (e : exn Asset) (w : World)
| Diverge.

Arguments Ret {World Asset A} a w.
Arguments Raise {World Asset A} e w.
Arguments Diverge {World Asset A}.

(** A computation over the store. *)
Definition M (World Asset A : Type) : Type := World -> outcome World Asset A.

Definition ret {World Asset A} (a : A) : M World Asset A :=
  fun w => Ret a w.

Definition raise {World Asset A} (e : exn Asset) : M World Asset A :=
  fun w => Raise e w.

Definition bind {World Asset A B}
  (c : M World Asset A) (k : A -> M World Asset B) : M World Asset B :=
  fun w =>
    match c w with
    | Ret a w1 => k a w1
    | Raise e w1 => Raise e w1
    | Diverge => Diverge
    end.

Declare Scope py_scope.
Delimit Scope py_scope with py.
Notation "x <- c ;; k" := (bind c (fun x => k))
  (at level 61, c at next level, right associativity) : py_scope.
Notation "c ;;; k" := (bind c (fun _ => k))
  (at level 61, right associativity) : py_scope.
Local Open Scope py_scope.

(** An outcome that is not [Diverge]: the call came back, normally or with an
    exception. *)
Definition terminates {World Asset A} (o : outcome World Asset A) : Prop :=
  match o with
  | Diverge => False
  | _ => True
  end.

(** Optional (keyword) arguments with a default value. *)
Definition or_default {A} (arg : option A) (dflt : A) : A :=
  match arg with
  | Some a => a
  | None => dflt
  end.

(** ** The rejection loop: [resample_while] *)

Section ResampleWhile.

Context {World Asset Rng : Type}.

(** [sampler(asset, rng)] and [condition(asset)]: arbitrary callables. *)
Definition sampler : Type := Asset -> Rng -> M World Asset unit.
Definition condition : Type := Asset -> M World Asset bool.

(** [for sampler in samplers: sampler(asset, rng)] *)
Fixpoint apply_samplers (samplers : list sampler) (asset : Asset) (rng : Rng)
  : M World Asset unit :=
  match samplers with
  | [] => ret tt
  | s :: rest => s asset rng ;;; apply_samplers rest asset rng
  end.

(** The [for trial in range(max_trials): ... else: raise ...] loop, by
    recursion on the number of trials that remain.  The [else] branch of a
    Python [for] runs when the range is exhausted without [return]. *)
Fixpoint trial_loop (remaining : nat) (asset : Asset)
  (samplers : list sampler) (cond : condition) (rng : Rng)
  : M World Asset unit :=
  match remaining with
  | O => raise (RuntimeError "Failed to place" asset)
  | S remaining' =>
      apply_samplers samplers asset rng ;;;
      c <- cond asset ;;
      if negb c then ret tt
      else trial_loop remaining' asset samplers cond rng
  end.

Definition default_max_trials : Z := 100.

(** [range(max_trials)] has [Z.to_nat max_trials] elements: none when
    [max_trials] is zero or negative. *)
Definition resample_while (asset : Asset) (samplers : list sampler)
  (cond : condition) (max_trials : option Z) (rng : Rng)
  : M World Asset unit :=
  trial_loop (Z.to_nat (or_default max_trials default_max_trials))
    asset samplers cond rng.

(** *** Vocabulary for the statements *)

(** One trial: every sampler of the list, in list order, then the
    condition. *)
Definition trial (asset : Asset) (samplers : list sampler)
  (cond : condition) (rng : Rng) : M World Asset bool :=
  apply_samplers samplers asset rng ;;; cond asset.

(** [rejected_trials asset samplers cond rng n w w']: starting in [w],
    [n] consecutive trials come back with a true condition and leave the
    world [w']. *)
Inductive rejected_trials (asset : Asset) (samplers : list sampler)
  (cond : condition) (rng : Rng) : nat -> World -> World -> Prop :=
| rejected_none w :
    rejected_trials asset samplers cond rng 0 w w
| rejected_more n w w1 w2 :
    trial asset samplers cond rng w = Ret true w1 ->
    rejected_trials asset samplers cond rng n w1 w2 ->
    rejected_trials asset samplers cond rng (S n) w w2.

(** [stops_within n ... w o]: the outcome [o] of the loop started in [w] is
    reached after at most [n] trials: [k <= n] rejected trials, followed by
    the exhaustion of the budget ([k = n]), or by a trial that is accepted,
    or by a trial that raises. *)
Definition stops_within (n : nat) (asset : Asset) (samplers : list sampler)
  (cond : condition) (rng : Rng) (w : World)
  (o : outcome World Asset unit) : Prop :=
  exists k w1,
    (k <= n)%nat /\
    rejected_trials asset samplers cond rng k w w1 /\
    ((k = n /\ o = Raise (RuntimeError "Failed to place" asset) w1) \/
     (k < n /\ exists w2,
        trial asset samplers cond rng w1 = Ret false w2 /\ o = Ret tt w2) \/
     (k < n /\ exists e w2,
        trial asset samplers cond rng w1 = Raise e w2 /\ o = Raise e w2))%nat.

End ResampleWhile.

Arguments sampler : clear implicits.
Arguments condition : clear implicits.

(** ** Numbers, vectors and the objects of a scene *)

Local Open Scope R_scope.

Definition vec3 : Type := R * R * R.
Definition quat : Type := R * R * R * R.

(** An axis-aligned box as (min-corner, max-corner); also the shape of
    [obj.bounds] and of [region]. *)
Definition box : Type := vec3 * vec3.

Definition vec3_sub (a b : vec3) : vec3 :=
  let '(ax, ay, az) := a in
  let '(bx, by_, bz) := b in
  (ax - bx, ay - by_, az - bz).


(** Component-wise [<=] on vectors. *)
Definition vec3_le (a b : vec3) : Prop :=
  let '(ax, ay, az) := a in
  let '(bx, by_, bz) := b in
  ax <= bx /\ ay <= by_ /\ az <= bz.

(** [objects.PhysicalObject], as far as this file reads and writes it. *)
Record PhysicalObject : Type := {
  position : vec3;
  quaternion : quat;
  bounds : box
}.

Definition with_quaternion (o : PhysicalObject) (q : quat) : PhysicalObject :=
  {| position := position o; quaternion := q; bounds := bounds o |}.

Definition with_position (o : PhysicalObject) (p : vec3) : PhysicalObject :=
  {| position := p; quaternion := quaternion o; bounds := bounds o |}.

(** ** The random source

    A [numpy.random.Generator] is modelled by the sequence of standard
    uniform doubles it is going to produce and a cursor into it.  Every
    generator, adversarial ones included, is such a sequence. *)
Record Generator : Type := {
  stream : nat -> R;
  cursor : nat
}.

Definition next_double (g : Generator) : R * Generator :=
  (stream g (cursor g), {| stream := stream g; cursor := S (cursor g) |}).

(** numpy's contract: standard uniform draws lie in [0, 1). *)
Definition unit_draws (g : Generator) : Prop :=
  forall n, 0 <= stream g n < 1.

(** [skip n g]: the generator [g] after [n] draws. *)
Definition skip (n : nat) (g : Generator) : Generator :=
  {| stream := stream g; cursor := n + cursor g |}.

(** The [k]-th pair of draws that [g] is going to produce. *)
Definition pair_at (g : Generator) (k : nat) : R * R :=
  (stream g (2 * k + cursor g), stream g (S (2 * k + cursor g))).

(** A pair is accepted by a rejection loop when [not (x*x + y*y > 1)]. *)
Definition in_disk (p : R * R) : Prop :=
  fst p * fst p + snd p * snd p <= 1.

(** The [k]-th pair is the first accepted one. *)
Definition first_in_disk (g : Generator) (k : nat) : Prop :=
  (forall j, (j < k)%nat -> ~ in_disk (pair_at g j)) /\ in_disk (pair_at g k).

(** A source is fair when, from every position on, some pair of draws falls
    in the unit disk. *)
Definition fair (g : Generator) : Prop :=
  forall c, exists k,
    in_disk (stream g (2 * k + c)%nat, stream g (S (2 * k + c))).

(** ** The store *)

(** References to objects and to generators. *)
Definition obj_ref : Type := nat.
Definition rng_ref : Type := nat.

Definition upd {A} (f : nat -> A) (k : nat) (v : A) : nat -> A :=
  fun k' => if Nat.eqb k' k then v else f k'.

Section Scene.

(** The state of the external simulator. *)
Context {Sim : Type}.

Record Scene : Type := {
  objects : obj_ref -> PhysicalObject;
  generators : rng_ref -> Generator;
  simulation : Sim
}.

Definition Py (A : Type) : Type := M Scene obj_ref A.

Definition get_object (obj : obj_ref) : Py PhysicalObject :=
  fun w => Ret (objects w obj) w.

Definition set_object (obj : obj_ref) (o : PhysicalObject) (w : Scene) : Scene :=
  {| objects := upd (objects w) obj o;
     generators := generators w;
     simulation := simulation w |}.

Definition set_generator (rng : rng_ref) (g : Generator) (w : Scene) : Scene :=
  {| objects := objects w;
     generators := upd (generators w) rng g;
     simulation := simulation w |}.

(** [obj.quaternion = q] and [obj.position = p] *)
Definition set_quaternion (obj : obj_ref) (q : quat) : Py unit :=
  fun w => Ret tt (set_object obj (with_quaternion (objects w obj) q) w).

Definition set_position (obj : obj_ref) (p : vec3) : Py unit :=
  fun w => Ret tt (set_object obj (with_position (objects w obj) p) w).

(** [rng.uniform(low, high)] for scalars: numpy checks the range first and
    raises [ValueError("high - low < 0")] without drawing; otherwise it
    computes [low + (high - low) * next_double]. *)
Definition uniform (rng : rng_ref) (low high : R) : Py R :=
  fun w =>
    if Rlt_dec (high - low) 0 then Raise (ValueError "high - low < 0") w
    else
      let '(u, g) := next_double (generators w rng) in
      Ret (low + (high - low) * u) (set_generator rng g w).

(** [rng.uniform(size=2)]: two draws with the defaults [low=0], [high=1]. *)
Definition uniform_size2 (rng : rng_ref) : Py (R * R) :=
  x <- uniform rng 0 1 ;;
  y <- uniform rng 0 1 ;;
  ret (x, y).

(** [rng.uniform(low, high)] for 3-vectors: numpy checks the whole array
    [high - low] before it draws anything, and raises
    [ValueError("high - low < 0")] if a component is negative; otherwise
    one draw per component, in order. *)
Definition uniform_vec3 (rng : rng_ref) (low high : vec3) : Py vec3 :=
  let '(lx, ly, lz) := low in
  let '(hx, hy, hz) := high in
  if Rlt_dec (hx - lx) 0 then raise (ValueError "high - low < 0")
  else if Rlt_dec (hy - ly) 0 then raise (ValueError "high - low < 0")
  else if Rlt_dec (hz - lz) 0 then raise (ValueError "high - low < 0")
  else
    x <- uniform rng lx hx ;;
    y <- uniform rng ly hy ;;
    z <- uniform rng lz hz ;;
    ret (x, y, z).

(** *** Vocabulary for the statements *)

(** [draws rng n w w']: [w'] is [w] after [n] draws from the generator
    [rng], and nothing else has changed. *)
Definition draws (rng : rng_ref) (n : nat) (w w' : Scene) : Prop :=
  generators w' rng = skip n (generators w rng) /\
  (forall r, r <> rng -> generators w' r = generators w r) /\
  objects w' = objects w /\
  simulation w' = simulation w.

(** The generator [rng] has moved on by some number of draws; nothing else
    has changed. *)
Definition advances (rng : rng_ref) (wd wd' : Scene) : Prop :=
  exists n, draws rng n wd wd'.

(** [called P wd o]: if the call came back, the world it left is related
    to the world before the call by [P]. *)
Definition called {A} (P : Scene -> Scene -> Prop) (wd : Scene)
  (o : outcome Scene obj_ref A) : Prop :=
  match o with
  | Ret _ wd' | Raise _ wd' => P wd wd'
  | Diverge => True
  end.

(** Between [wd] and [wd'] the object [obj] has kept its position and its
    bounds, and every other object is as it was. *)
Definition only_quaternion_changed (obj : obj_ref) (wd wd' : Scene) : Prop :=
  position (objects wd' obj) = position (objects wd obj) /\
  bounds (objects wd' obj) = bounds (objects wd obj) /\
  forall o, o <> obj -> objects wd' o = objects wd o.

Definition only_position_changed (obj : obj_ref) (wd wd' : Scene) : Prop :=
  quaternion (objects wd' obj) = quaternion (objects wd obj) /\
  bounds (objects wd' obj) = bounds (objects wd obj) /\
  forall o, o <> obj -> objects wd' o = objects wd o.

End Scene.

Arguments Scene : clear implicits.
Arguments Py : clear implicits.

(** ** The mathutils library

    mathutils is an external library (Blender).  Its two entry points used by
    randomness.py are an interface here, with the part of their documented
    contract that the theorems below rely on. *)

(** What reaches [mathutils.Quaternion] as its first argument. *)
Inductive py_axis : Type :=
| PyStr (s : string)
| PyTuple (v : list R).

Class Mathutils : Type := {
  (** [tuple(mathutils.Quaternion(axis, angle))] *)
  Quaternion_axis_angle : py_axis -> R -> exn obj_ref + quat;
  (** [x.rotate(mathutils.Quaternion(q))], as a function of [q] and [x] *)
  Vector_rotate : quat -> vec3 -> vec3;
  (** the axis of an (axis, angle) pair must have exactly three components *)
  axis_of_three :
    forall v angle, List.length v <> 3%nat ->
      exists msg, Quaternion_axis_angle (PyTuple v) angle = inl (ValueError msg);
  (** a string is rejected: it is not a sequence of numbers *)
  axis_not_a_string :
    forall s angle, exists e, Quaternion_axis_angle (PyStr s) angle = inl e;
  (** the identity quaternion (w, x, y, z) = (1, 0, 0, 0) rotates nothing *)
  rotate_identity :
    forall x, Vector_rotate (1, 0, 0, 0) x = x
}.

(** ** [random_rotation] *)

(** [str.upper()] on the ASCII letters.  No character outside ASCII has an
    upper case among X, Y and Z, so this is enough for the membership test. *)
Definition upper_ascii (c : ascii) : ascii :=
  let n := nat_of_ascii c in
  if (97 <=? n)%nat && (n <=? 122)%nat then ascii_of_nat (n - 32) else c.

Fixpoint upper (s : string) : string :=
  match s with
  | EmptyString => EmptyString
  | String c rest => String (upper_ascii c) (upper rest)
  end.

(** [key in keys] *)
Definition str_in (key : string) (keys : list string) : bool :=
  existsb (String.eqb key) keys.

(** [d[key]] on a dict literal *)
Fixpoint dict_get {V} (d : list (string * V)) (key : string) : option V :=
  match d with
  | [] => None
  | (k, v) :: rest => if String.eqb key k then Some v else dict_get rest key
  end.

(** The dict literal of lines 47-49, as written. *)
Definition axis_table : list (string * list R) :=
  [ ("X", [1; 0; 0; 0]);
    ("Y", [0; 1; 0]);
    ("Z", [0; 0; 1]) ].

Section Samplers.

Context {Sim : Type} {mathutils : Mathutils}.

(** One of the two rejection loops
    [z = 2; while z > 1: x, y = rng.uniform(size=2); z = x*x + y*y].
    The loop state is [(x, y, z)]; the loop is entered with [z = 2], where
    [x] and [y] are not bound yet (the placeholders are overwritten by the
    first iteration, which always runs because [2 > 1]). *)
Fixpoint disk_loop (fuel : nat) (rng : rng_ref) (xyz : R * R * R)
  : Py Sim (R * R * R) :=
  let '(x, y, z) := xyz in
  if Rgt_dec z 1 then
    match fuel with
    | O => fun _ => Diverge
    | S fuel' =>
        p <- uniform_size2 rng ;;
        let '(x', y') := p in
        disk_loop fuel' rng (x', y', x' * x' + y' * y')
    end
  else ret (x, y, z).

(** The lookup of lines 46-49: a string whose upper case is one of the
    three names is replaced by the table entry, anything else is passed
    on as it is. *)
Definition resolve_axis (axis : py_axis) : Py Sim py_axis :=
  match axis with
  | PyStr s =>
      if str_in (upper s) ["X"; "Y"; "Z"]%string then
        match dict_get axis_table (upper s) with
        | Some v => ret (PyTuple v)
        | None => raise (KeyError (upper s))
        end
      else ret (PyStr s)
  | PyTuple v => ret (PyTuple v)
  end.

(** [axis] is [None] or a Python value.  The arguments of
    [mathutils.Quaternion] are evaluated before the call, so the angle is
    drawn even when the constructor rejects the axis.  The division of line
    43 is the division of the reals: when the second accepted point is the
    origin ([w = 0]) the floating-point code produces NaN components, which
    the reals do not have; the statements on the value returned exclude that
    input. *)
Definition random_rotation (fuel : nat) (axis : option py_axis)
  (rng : rng_ref) : Py Sim quat :=
  match axis with
  | None =>
      xyz <- disk_loop fuel rng (0, 0, 2) ;;
      let '(x, y, z) := xyz in
      uvw <- disk_loop fuel rng (0, 0, 2) ;;
      let '(u, v, w) := uvw in
      let s := sqrt ((1 - z) / w) in
      ret (x, y, s * u, s * v)
  | Some a =>
      a' <- resolve_axis a ;;
      angle <- uniform rng 0 (2 * PI) ;;
      match Quaternion_axis_angle a' angle with
      | inl e => raise e
      | inr q => ret q
      end
  end.

(** ** The samplers *)

Definition rotation_sampler (fuel : nat) (axis : option py_axis)
  : sampler (Scene Sim) obj_ref rng_ref :=
  fun obj rng =>
    q <- random_rotation fuel axis rng ;;
    set_quaternion obj q.

(** [itertools.product(xs, ys, zs)] *)
Definition product3 (xs ys zs : list R) : list vec3 :=
  flat_map (fun x => flat_map (fun y => map (fun z => (x, y, z)) zs) ys) xs.

(** The eight corners of a box:
    [itertools.product(bounds[:, 0], bounds[:, 1], bounds[:, 2])]. *)
Definition corners (b : box) : list vec3 :=
  let '((x0, y0, z0), (x1, y1, z1)) := b in
  product3 [x0; x1] [y0; y1] [z0; z1].

Definition vec3_min (a b : vec3) : vec3 :=
  let '(ax, ay, az) := a in
  let '(bx, by_, bz) := b in
  (Rmin ax bx, Rmin ay by_, Rmin az bz).

Definition vec3_max (a b : vec3) : vec3 :=
  let '(ax, ay, az) := a in
  let '(bx, by_, bz) := b in
  (Rmax ax bx, Rmax ay by_, Rmax az bz).

(** [points.min(axis=0)] and [points.max(axis=0)]; numpy raises on an empty
    array. *)
Definition min_axis0 (points : list vec3) : Py Sim vec3 :=
  match points with
  | [] => raise (ValueError "zero-size array to reduction operation minimum which has no identity")
  | p :: rest => ret (fold_left vec3_min rest p)
  end.

Definition max_axis0 (points : list vec3) : Py Sim vec3 :=
  match points with
  | [] => raise (ValueError "zero-size array to reduction operation maximum which has no identity")
  | p :: rest => ret (fold_left vec3_max rest p)
  end.

(** The corners of the object's bounding box, each rotated by the object's
    current orientation. *)
Definition rotated_corners (o : PhysicalObject) : list vec3 :=
  map (Vector_rotate (quaternion o)) (corners (bounds o)).

Definition position_sampler (region : box)
  : sampler (Scene Sim) obj_ref rng_ref :=
  fun obj rng =>
    o <- get_object obj ;;
    let bbox_points := rotated_corners o in
    lo <- min_axis0 bbox_points ;;
    hi <- max_axis0 bbox_points ;;
    let rotated_bounds : box := (lo, hi) in
    let effective_region : box :=
      (vec3_sub (fst region) (fst rotated_bounds),
       vec3_sub (snd region) (snd rotated_bounds)) in
    p <- uniform_vec3 rng (fst effective_region) (snd effective_region) ;;
    set_position obj p.

(** ** [move_until_no_overlap] *)

(** The simulator collaborator: [simulator.check_overlap(obj)]. *)
Record Simulator : Type := {
  check_overlap : condition (Scene Sim) obj_ref
}.

Definition default_spawn_region : box := ((-1, -1, -1), (1, 1, 1)).

Definition move_until_no_overlap (fuel : nat) (asset : obj_ref)
  (simulator : Simulator) (spawn_region : option box)
  (max_trials : option Z) (rng : rng_ref) : Py Sim unit :=
  resample_while asset
    [rotation_sampler fuel None;
     position_sampler (or_default spawn_region default_spawn_region)]
    (check_overlap simulator)
    (Some (or_default max_trials 100%Z))
    rng.

(** *** Vocabulary for the statements *)


(** The component-wise minimum and maximum of the rotated corners (line 73)
    and the effective region (line 75), as functions of the object. *)
Definition rotated_bounds (o : PhysicalObject) : box :=
  match rotated_corners o with
  | [] => ((0, 0, 0), (0, 0, 0))
  | p :: rest => (fold_left vec3_min rest p, fold_left vec3_max rest p)
  end.

Definition effective_region (region : box) (o : PhysicalObject) : box :=
  (vec3_sub (fst region) (fst (rotated_bounds o)),
   vec3_sub (snd region) (snd (rotated_bounds o))).

(** The rotated extent is no larger than the region, axis by axis. *)
Definition extent_fits (region : box) (o : PhysicalObject) : Prop :=
  vec3_le (vec3_sub (snd (rotated_bounds o)) (fst (rotated_bounds o)))
          (vec3_sub (snd region) (fst region)).

(** The simulator's overlap check comes back and leaves the future draws
    of the generator [rng] as they were. *)
Definition well_behaved (simulator : Simulator) (rng : rng_ref) : Prop :=
  forall a wd,
    match check_overlap simulator a wd with
    | Ret _ wd' => stream (generators wd' rng) = stream (generators wd rng)
    | Raise _ _ => True
    | Diverge => False
    end.

End Samplers.



(** *** A logging world, to run [resample_while] on

    The world is the list of the sampler calls made so far. *)
Module Logged.

Definition log_sampler (i : nat) : sampler (list nat) nat unit :=
  fun _ _ w => Ret tt (w ++ [i])%list.

Definition always : condition (list nat) nat :=
  fun _ w => Ret true w.

(** true until [n] sampler calls have been made *)
Definition until_calls (n : nat) : condition (list nat) nat :=
  fun _ w => Ret (List.length w <? n)%nat w.

Definition stuck_sampler : sampler (list nat) nat unit :=
  fun _ _ _ => Diverge.

Definition failing : condition (list nat) nat :=
  fun _ w => Raise (TypeError "not callable") w.

End Logged.

(** ** A reference implementation of the mathutils interface

    Blender's formulas over the reals: the axis of an (axis, angle) pair is
    normalised, a quaternion is normalised before it rotates a vector. *)
Module Reference.

Definition Quaternion_axis_angle (a : py_axis) (angle : R)
  : exn obj_ref + quat :=
  match a with
  | PyStr s =>
      if Nat.eqb (String.length s) 3
      then inl (TypeError "mathutils.Quaternion(): sequence index 0 expected a number, found 'str' type instance")
      else inl (ValueError "mathutils.Quaternion(): sequence size differs from the expected 3")
  | PyTuple [x; y; z] =>
      let n := sqrt (x * x + y * y + z * z) in
      if Req_EM_T n 0 then inr (1, 0, 0, 0)
      else
        let h := angle / 2 in
        inr (cos h, x / n * sin h, y / n * sin h, z / n * sin h)
  | PyTuple _ =>
      inl (ValueError "mathutils.Quaternion(): sequence size differs from the expected 3")
  end.

(** The rotation matrix of the quaternion [q], whose squared norm is [2 / k],
    applied to [p]. *)
Definition rotate_unit (q : quat) (k : R) (p : vec3) : vec3 :=
  let '(qw, qx, qy, qz) := q in
  let '(px, py_, pz) := p in
  ((1 - k * (qy * qy + qz * qz)) * px + k * (qx * qy - qw * qz) * py_
     + k * (qx * qz + qw * qy) * pz,
   k * (qx * qy + qw * qz) * px + (1 - k * (qx * qx + qz * qz)) * py_
     + k * (qy * qz - qw * qx) * pz,
   k * (qx * qz - qw * qy) * px + k * (qy * qz + qw * qx) * py_
     + (1 - k * (qx * qx + qy * qy)) * pz).

(** Blender normalises the zero quaternion to (0, 1, 0, 0). *)
Definition Vector_rotate (q : quat) (p : vec3) : vec3 :=
  let '(qw, qx, qy, qz) := q in
  let n := qw * qw + qx * qx + qy * qy + qz * qz in
  if Req_EM_T n 0 then rotate_unit (0, 1, 0, 0) 2 p
  else rotate_unit q (2 / n) p.

End Reference.

#[export, refine] Instance reference_mathutils : Mathutils := {|
  Quaternion_axis_angle := Reference.Quaternion_axis_angle;
  Vector_rotate := Reference.Vector_rotate
|}.
Proof.
  - intros v angle Hlen. destruct v as [|a [|b [|c [|d v]]]]; cbn in *;
      try (eexists; reflexivity). contradiction.
  - intros s angle. cbn.
    destruct (Nat.eqb (String.length s) 3); eexists; reflexivity.
  - intros [[px py_] pz]. unfold Reference.Vector_rotate.
    destruct (Req_EM_T (1 * 1 + 0 * 0 + 0 * 0 + 0 * 0) 0) as [H|_]; [lra|].
    unfold Reference.rotate_unit. f_equal; [f_equal|]; field.
Defined.

(** Scenes to run the samplers on: no simulator state, every reference
    holds the same object and the same generator. *)
Module Scenes.

Definition unit_cube : PhysicalObject :=
  {| position := (0, 0, 0);
     quaternion := (1, 0, 0, 0);
     bounds := ((-1/2, -1/2, -1/2), (1/2, 1/2, 1/2)) |}.

Definition scene_with (g : Generator) : Scene unit :=
  {| objects := fun _ => unit_cube;
     generators := fun _ => g;
     simulation := tt |}.

(** An adversarial source: every draw is 0.9, so every pair has squared
    radius 1.62. *)
Definition stuck_generator : Generator :=
  {| stream := fun _ => 9/10; cursor := 0 |}.

(** (0.9, 0.9) is rejected, (0.5, 0.5) accepted, (0.6, 0.8) accepted. *)
Definition three_pairs : Generator :=
  {| stream := fun n =>
       match n with
       | 0%nat | 1%nat => 9/10
       | 2%nat | 3%nat => 1/2
       | 4%nat => 3/5
       | _ => 4/5
       end;
     cursor := 0 |}.

(** Every draw is 0.25. *)
Definition quarter_generator : Generator :=
  {| stream := fun _ => 1/4; cursor := 0 |}.

(** Two simulators: one reports an overlap for every placement, the other
    for none. *)
Definition always_overlapping : @Simulator unit :=
  {| check_overlap := fun _ wd => Ret true wd |}.

Definition never_overlapping : @Simulator unit :=
  {| check_overlap := fun _ wd => Ret false wd |}.

End Scenes.

(** ** [random_hue_color] *)

Section Color.

Context {Sim : Type} {Color : Type}.

(** [color.Color.from_hsv(h, s, v)]: kubric.core.color is outside this file;
    the constructor is a parameter. *)
Variable from_hsv : R -> R -> R -> Color.

(** [rng.uniform()] is a draw with the defaults [low=0], [high=1]; the
    keyword defaults of [saturation] and [value] are both 1. *)
Definition random_hue_color (saturation value : option R) (rng : rng_ref)
  : Py Sim Color :=
  h <- uniform rng 0 1 ;;
  ret (from_hsv h (or_default saturation 1) (or_default value 1)).

End Color.

(** ** More vocabulary for the statements *)

(** A condition that only looks: it returns a boolean and leaves the world
    as it found it. *)
Definition read_only {World Asset : Type} (cond : condition World Asset)
  : Prop :=
  forall a w, exists b, cond a w = Ret b w.

(** [lands P o]: if the call came back, normally or with an exception, the
    world it left satisfies [P]. *)
Definition lands {World Asset A : Type} (P : World -> Prop)
  (o : outcome World Asset A) : Prop :=
  match o with
  | Ret _ w | Raise _ w => P w
  | Diverge => True
  end.

(** A callable that never raises. *)
Definition sampler_never_raises {World Asset Rng : Type}
  (s : sampler World Asset Rng) : Prop :=
  forall a r w e w', s a r w <> Raise e w'.

Definition condition_never_raises {World Asset : Type}
  (cond : condition World Asset) : Prop :=
  forall a w e w', cond a w <> Raise e w'.

(** The axis that reaches [mathutils.Quaternion] for the names "Y" and "Z"
    (in any case) and for an explicit sequence. *)
Definition axis_resolves (a : py_axis) (v : list R) : Prop :=
  (exists s, a = PyStr s /\ upper s = "Y"%string /\ v = [0; 1; 0]) \/
  (exists s, a = PyStr s /\ upper s = "Z"%string /\ v = [0; 0; 1]) \/
  a = PyTuple v.

(** What a sampler may do to the generators and to the simulator: the
    generator [rng] moves on by some number of draws, every other generator
    and the simulator state stay as they were. *)
Definition only_draws_from {Sim : Type} (rng : rng_ref) (wd wd' : Scene Sim)
  : Prop :=
  (exists n, generators wd' rng = skip n (generators wd rng)) /\
  (forall r, r <> rng -> generators wd' r = generators wd r) /\
  simulation wd' = simulation wd.



(** More worlds to run on. *)
Module MoreScenes.

(** A simulator that reports an overlap exactly when the object's position
    has a negative first coordinate. *)
Definition left_half_occupied : @Simulator unit :=
  {| check_overlap := fun obj wd =>
       Ret (if Rlt_dec (fst (fst (position (objects wd obj)))) 0
            then true else false) wd |}.

(** A sampler that fails. *)
Definition broken_sampler : sampler (list nat) nat unit :=
  fun _ _ w => Raise (ValueError "broken") w.

End MoreScenes.

(** ** Theorems on [resample_while] *)

Section ResampleWhileFacts.

Context {World Asset Rng : Type}.
Implicit Types (asset : Asset) (rng : Rng) (w : World).
Implicit Types (samplers : list (sampler World Asset Rng)).
Implicit Types (cond : condition World Asset).

Lemma trial_loop_step n asset samplers cond rng w :
  trial_loop (S n) asset samplers cond rng w =
  match trial asset samplers cond rng w with
  | Ret true w1 => trial_loop n asset samplers cond rng w1
  | Ret false w1 => Ret tt w1
  | Raise e w1 => Raise e w1
  | Diverge => Diverge
  end.
Proof.
  cbn [trial_loop]. unfold trial, bind.
  destruct (apply_samplers samplers asset rng w) as [[] w1|e w1|]; try reflexivity.
  destruct (cond asset w1) as [[|] w2|e w2|]; reflexivity.
Qed.

Lemma trial_loop_rejected n asset samplers cond rng w w' :
  rejected_trials asset samplers cond rng n w w' ->
  forall m,
    trial_loop (n + m) asset samplers cond rng w =
    trial_loop m asset samplers cond rng w'.
Proof.
  induction 1 as [w|n w w1 w2 Htrial _ IH]; intros m.
  - reflexivity.
  - change (S n + m)%nat with (S (n + m)).
    rewrite trial_loop_step, Htrial. apply IH.
Qed.

Lemma resample_while_unfold asset samplers cond max_trials rng :
  resample_while asset samplers cond (Some max_trials) rng =
  trial_loop (Z.to_nat max_trials) asset samplers cond rng.
Proof. reflexivity. Qed.

(** C1.  When the condition comes back true on each of the [max_trials]
    trials, [resample_while] does not return: it raises
    [RuntimeError("Failed to place", asset)], carrying the reference of the
    asset it was given, and the world at the raise is the one left by
    exactly [max_trials] trials, each of them having applied every sampler
    of the list in list order before evaluating the condition.  (The
    claim's side conditions, a non-empty list and [max_trials >= 1], are
    not needed.) *)
Theorem resample_while_exhausted asset samplers cond max_trials rng w w' :
  rejected_trials asset samplers cond rng (Z.to_nat max_trials) w w' ->
  resample_while asset samplers cond (Some max_trials) rng w =
  Raise (RuntimeError "Failed to place" asset) w'.
Proof.
  intros Hrej. rewrite resample_while_unfold.
  rewrite <- (Nat.add_0_r (Z.to_nat max_trials)).
  rewrite (trial_loop_rejected _ _ _ _ _ _ _ Hrej). reflexivity.
Qed.

(** C2.  When the condition is true on trials 1 .. k-1 and false on trial
    [k], with [1 <= k <= max_trials], [resample_while] returns normally and
    the world it leaves is the one produced by the k-th trial: exactly [k]
    applications of the whole sampler list have happened. *)
Theorem resample_while_accepts asset samplers cond max_trials rng k w w1 w2 :
  (1 <= k)%nat ->
  (Z.of_nat k <= max_trials)%Z ->
  rejected_trials asset samplers cond rng (k - 1) w w1 ->
  trial asset samplers cond rng w1 = Ret false w2 ->
  resample_while asset samplers cond (Some max_trials) rng w = Ret tt w2.
Proof.
  intros Hk Hmax Hrej Hacc. rewrite resample_while_unfold.
  replace (Z.to_nat max_trials)
    with ((k - 1) + S (Z.to_nat max_trials - k))%nat by lia.
  rewrite (trial_loop_rejected _ _ _ _ _ _ _ Hrej).
  rewrite trial_loop_step, Hacc. reflexivity.
Qed.

(** C10.  With [max_trials <= 0] the range is empty: the [else] branch
    raises at once, in the world the call started in.  The statement holds
    for all samplers and conditions, also those that would raise or
    diverge, so none of them is called. *)
Theorem resample_while_no_trials asset samplers cond max_trials rng w :
  (max_trials <= 0)%Z ->
  resample_while asset samplers cond (Some max_trials) rng w =
  Raise (RuntimeError "Failed to place" asset) w.
Proof.
  intros Hmax. rewrite resample_while_unfold.
  replace (Z.to_nat max_trials) with 0%nat by lia. reflexivity.
Qed.

End ResampleWhileFacts.

Lemma resample_while_exhausted_witness :
  resample_while 7%nat [Logged.log_sampler 0; Logged.log_sampler 1]
    Logged.always (Some 3%Z) tt [] =
  Raise (RuntimeError "Failed to place" 7%nat) [0; 1; 0; 1; 0; 1]%nat.
Proof.
  apply resample_while_exhausted.
  repeat (eapply rejected_more; [reflexivity|]). apply rejected_none.
Defined.

Lemma resample_while_accepts_witness :
  resample_while 7%nat [Logged.log_sampler 0; Logged.log_sampler 1]
    (Logged.until_calls 6) (Some 5%Z) tt [] =
  Ret tt [0; 1; 0; 1; 0; 1]%nat.
Proof.
  apply (resample_while_accepts _ _ _ _ _ 3%nat [] [0; 1; 0; 1]%nat).
  - lia.
  - lia.
  - repeat (eapply rejected_more; [reflexivity|]). apply rejected_none.
  - reflexivity.
Defined.

Lemma resample_while_no_trials_witness :
  resample_while 7%nat [Logged.stuck_sampler] Logged.failing (Some (-3)%Z) tt
    [5]%nat =
  Raise (RuntimeError "Failed to place" 7%nat) [5]%nat.
Proof.
  apply resample_while_no_trials. lia.
Defined.

(** ** The random source and the store: basic facts *)

Lemma skip_0 g : skip 0 g = g.
Proof. destruct g; reflexivity. Qed.

Lemma skip_skip n m g : skip n (skip m g) = skip (n + m) g.
Proof. unfold skip; cbn. f_equal. lia. Qed.

Lemma pair_at_skip g k j : pair_at (skip (2 * j) g) k = pair_at g (k + j).
Proof.
  unfold pair_at, skip; cbn [stream cursor].
  replace (2 * k + (2 * j + cursor g))%nat with (2 * (k + j) + cursor g)%nat by lia.
  reflexivity.
Qed.

Lemma upd_same {A} (f : nat -> A) k v : upd f k v k = v.
Proof. unfold upd. now rewrite Nat.eqb_refl. Qed.

Lemma upd_other {A} (f : nat -> A) k v k' : k' <> k -> upd f k v k' = f k'.
Proof. unfold upd. intros H. apply Nat.eqb_neq in H. now rewrite H. Qed.

Section SceneFacts.

Context {Sim : Type}.
Implicit Types (w : Scene Sim) (rng : rng_ref) (obj : obj_ref).

Lemma draws_refl rng w : draws rng 0 w w.
Proof. unfold draws. rewrite skip_0. auto. Qed.

Lemma draws_trans rng n m w w1 w2 :
  draws rng n w w1 -> draws rng m w1 w2 -> draws rng (m + n) w w2.
Proof.
  intros (Hg & Ho & Hobj & Hsim) (Hg' & Ho' & Hobj' & Hsim').
  unfold draws. rewrite Hg', Hg, skip_skip, Hobj', Hobj, Hsim', Hsim.
  repeat split. intros r Hr. rewrite Ho', Ho; auto.
Qed.

Lemma uniform_spec rng low high w :
  low <= high ->
  exists w1,
    uniform rng low high w =
      Ret (low + (high - low) * stream (generators w rng) (cursor (generators w rng))) w1 /\
    draws rng 1 w w1.
Proof.
  intros Hle. unfold uniform, next_double.
  destruct (Rlt_dec (high - low) 0) as [Hlt|_]; [lra|].
  eexists. split; [reflexivity|].
  unfold draws, set_generator; cbn [generators objects simulation].
  rewrite upd_same. repeat split.
  intros r Hr. now apply upd_other.
Qed.

Lemma std_uniform (u : R) : 0 + (1 - 0) * u = u.
Proof. ring. Qed.

Lemma uniform_size2_spec rng w :
  exists w2,
    uniform_size2 rng w = Ret (pair_at (generators w rng) 0) w2 /\
    draws rng 2 w w2.
Proof.
  unfold uniform_size2, bind.
  destruct (uniform_spec rng 0 1 w ltac:(lra)) as (w1 & -> & Hd1).
  destruct (uniform_spec rng 0 1 w1 ltac:(lra)) as (w2 & -> & Hd2).
  exists w2. split.
  - unfold ret, pair_at. destruct Hd1 as (-> & _). cbn [skip stream cursor].
    rewrite !std_uniform. reflexivity.
  - apply (draws_trans _ _ _ _ _ _ Hd1 Hd2).
Qed.

Lemma uniform_vec3_spec rng low high w :
  let g := generators w rng in
  let c := cursor g in
  vec3_le low high ->
  exists w3,
    uniform_vec3 rng low high w =
      Ret (fst (fst low) + (fst (fst high) - fst (fst low)) * stream g c,
           snd (fst low) + (snd (fst high) - snd (fst low)) * stream g (S c),
           snd low + (snd high - snd low) * stream g (S (S c))) w3 /\
    draws rng 3 w w3.
Proof.
  destruct low as [[lx ly] lz], high as [[hx hy] hz]. cbn [fst snd vec3_le].
  intros (Hx & Hy & Hz). unfold uniform_vec3.
  destruct (Rlt_dec (hx - lx) 0) as [Hlt|_]; [lra|].
  destruct (Rlt_dec (hy - ly) 0) as [Hlt|_]; [lra|].
  destruct (Rlt_dec (hz - lz) 0) as [Hlt|_]; [lra|].
  unfold bind.
  destruct (uniform_spec rng lx hx w Hx) as (w1 & -> & Hd1).
  destruct (uniform_spec rng ly hy w1 Hy) as (w2 & -> & Hd2).
  destruct (uniform_spec rng lz hz w2 Hz) as (w3 & -> & Hd3).
  exists w3. split.
  - pose proof (draws_trans _ _ _ _ _ _ Hd1 Hd2) as Hd12.
    destruct Hd1 as (-> & _). destruct Hd12 as (-> & _). reflexivity.
  - apply (draws_trans _ _ _ _ _ _ (draws_trans _ _ _ _ _ _ Hd1 Hd2) Hd3).
Qed.

(** A range with a negative component is refused before any draw. *)
Lemma uniform_vec3_refused rng low high w :
  ~ vec3_le low high ->
  uniform_vec3 rng low high w = Raise (ValueError "high - low < 0") w.
Proof.
  destruct low as [[lx ly] lz], high as [[hx hy] hz]. cbn [vec3_le].
  intros Hnot. unfold uniform_vec3.
  destruct (Rlt_dec (hx - lx) 0) as [Hlt|Hx]; [reflexivity|].
  destruct (Rlt_dec (hy - ly) 0) as [Hlt|Hy]; [reflexivity|].
  destruct (Rlt_dec (hz - lz) 0) as [Hlt|Hz]; [reflexivity|].
  exfalso. apply Hnot. lra.
Qed.

Lemma two_pi_range : 0 <= 2 * PI.
Proof. pose proof PI_RGT_0. lra. Qed.

End SceneFacts.

(** ** The rejection loops of [random_rotation] *)

Section DiskLoop.

Context {Sim : Type}.
Implicit Types (w : Scene Sim) (rng : rng_ref) (fuel : nat).

Lemma disk_loop_exit fuel rng x y z w :
  ~ z > 1 -> disk_loop fuel rng (x, y, z) w = Ret (x, y, z) w.
Proof.
  intros Hz. destruct fuel; cbn [disk_loop];
    destruct (Rgt_dec z 1); try contradiction; reflexivity.
Qed.

Lemma disk_loop_step fuel rng x y z w :
  z > 1 ->
  disk_loop (S fuel) rng (x, y, z) w =
  match uniform_size2 rng w with
  | Ret (x', y') w1 => disk_loop fuel rng (x', y', x' * x' + y' * y') w1
  | Raise e w1 => Raise e w1
  | Diverge => Diverge
  end.
Proof.
  intros Hz. cbn [disk_loop]. destruct (Rgt_dec z 1); [|contradiction].
  unfold bind. destruct (uniform_size2 rng w) as [[x' y'] w1|e w1|]; reflexivity.
Qed.

Lemma disk_loop_out_of_fuel rng x y z w :
  z > 1 -> disk_loop 0 rng (x, y, z) w = Diverge.
Proof.
  intros Hz. cbn [disk_loop]. destruct (Rgt_dec z 1); [reflexivity|contradiction].
Qed.

Lemma in_disk_exit (p : R * R) :
  in_disk p <-> ~ fst p * fst p + snd p * snd p > 1.
Proof. unfold in_disk. split; intros H; lra. Qed.

(** The loop exits with the first accepted pair, having drawn every pair up
    to it, provided the fuel lasts that long. *)
Lemma disk_loop_first k : forall fuel rng x0 y0 z0 w,
  z0 > 1 ->
  first_in_disk (generators w rng) k ->
  (k < fuel)%nat ->
  exists w1,
    disk_loop fuel rng (x0, y0, z0) w =
      Ret (fst (pair_at (generators w rng) k),
           snd (pair_at (generators w rng) k),
           fst (pair_at (generators w rng) k) * fst (pair_at (generators w rng) k)
           + snd (pair_at (generators w rng) k) * snd (pair_at (generators w rng) k))
          w1 /\
    draws rng (2 * S k) w w1.
Proof.
  induction k as [|k IH]; intros fuel rng x0 y0 z0 w Hz0 [Hrej Hacc] Hfuel;
    (destruct fuel as [|fuel]; [lia|]); rewrite disk_loop_step by assumption;
    destruct (uniform_size2_spec rng w) as (w1 & -> & Hd);
    destruct (pair_at (generators w rng) 0) as [x y] eqn:Hp.
  - exists w1. split; [|exact Hd].
    cbn [fst snd]. apply disk_loop_exit.
    apply (in_disk_exit (x, y)). exact Hacc.
  - assert (Hz : x * x + y * y > 1).
    { specialize (Hrej 0%nat ltac:(lia)). rewrite Hp in Hrej.
      unfold in_disk in Hrej. cbn [fst snd] in Hrej. lra. }
    assert (Hg1 : generators w1 rng = skip (2 * 1) (generators w rng))
      by apply Hd.
    destruct (IH fuel rng x y (x * x + y * y) w1 Hz) as (w2 & Heq & Hd2).
    + rewrite Hg1. split.
      * intros j Hj. rewrite pair_at_skip. apply Hrej. lia.
      * rewrite pair_at_skip. replace (k + 1)%nat with (S k) by lia. exact Hacc.
    + lia.
    + exists w2. split.
      * rewrite Heq, Hg1, pair_at_skip.
        replace (k + 1)%nat with (S k) by lia. reflexivity.
      * replace (2 * S (S k))%nat with (2 * S k + 2)%nat by lia.
        apply (draws_trans _ _ _ _ _ _ Hd Hd2).
Qed.

(** A source that never produces a point of the disk keeps the loop
    running, whatever the fuel. *)
Lemma disk_loop_never fuel : forall rng x0 y0 z0 w,
  z0 > 1 ->
  (forall k, ~ in_disk (pair_at (generators w rng) k)) ->
  disk_loop fuel rng (x0, y0, z0) w = Diverge.
Proof.
  induction fuel as [|fuel IH]; intros rng x0 y0 z0 w Hz0 Hnever.
  - now apply disk_loop_out_of_fuel.
  - rewrite disk_loop_step by assumption.
    destruct (uniform_size2_spec rng w) as (w1 & -> & Hd).
    pose proof (Hnever 0%nat) as H0.
    destruct (pair_at (generators w rng) 0) as [x y].
    apply IH.
    + unfold in_disk in H0. cbn [fst snd] in H0. lra.
    + intros k. destruct Hd as (-> & _).
      change 2%nat with (2 * 1)%nat. rewrite pair_at_skip. apply Hnever.
Qed.

(** When it returns, the loop returns a point of the closed unit disk
    together with its squared radius. *)
Lemma disk_loop_result fuel : forall rng x0 y0 z0 w x y z w1,
  z0 > 1 ->
  disk_loop fuel rng (x0, y0, z0) w = Ret (x, y, z) w1 ->
  z = x * x + y * y /\ z <= 1.
Proof.
  induction fuel as [|fuel IH]; intros rng x0 y0 z0 w x y z w1 Hz0 Hrun.
  - rewrite disk_loop_out_of_fuel in Hrun by assumption. discriminate.
  - rewrite disk_loop_step in Hrun by assumption.
    destruct (uniform_size2 rng w) as [[x' y'] w2|e w2|]; try discriminate.
    destruct (Rgt_dec (x' * x' + y' * y') 1) as [Hgt|Hle].
    + apply (IH _ _ _ _ _ _ _ _ _ Hgt Hrun).
    + rewrite disk_loop_exit in Hrun by assumption.
      injection Hrun as <- <- <- _. split; [reflexivity|lra].
Qed.

End DiskLoop.

(** ** [random_rotation] *)

Section RandomRotationFacts.

Context {Sim : Type} {mathutils : Mathutils}.
Implicit Types (rng : rng_ref) (fuel : nat).

(** With fuel for both loops, [random_rotation(axis=None)] returns the
    tuple built from the two accepted points. *)
Lemma random_rotation_run fuel rng (wd : Scene Sim) k1 k2 :
  let g := generators wd rng in
  let g1 := skip (2 * S k1) g in
  let x := fst (pair_at g k1) in
  let y := snd (pair_at g k1) in
  let u := fst (pair_at g1 k2) in
  let v := snd (pair_at g1 k2) in
  let s := sqrt ((1 - (x * x + y * y)) / (u * u + v * v)) in
  first_in_disk g k1 ->
  first_in_disk g1 k2 ->
  (k1 < fuel)%nat ->
  (k2 < fuel)%nat ->
  exists wd',
    random_rotation fuel None rng wd = Ret (x, y, s * u, s * v) wd' /\
    draws rng (2 * S k2 + 2 * S k1) wd wd'.
Proof.
  intros g g1 x y u v s H1 H2 Hk1 Hk2.
  destruct (disk_loop_first k1 fuel rng 0 0 2 wd ltac:(lra) H1 Hk1)
    as (wd1 & Hrun1 & Hd1).
  assert (Hg1 : generators wd1 rng = g1) by apply Hd1.
  rewrite <- Hg1 in H2.
  destruct (disk_loop_first k2 fuel rng 0 0 2 wd1 ltac:(lra) H2 Hk2)
    as (wd2 & Hrun2 & Hd2).
  exists wd2. split.
  - unfold random_rotation, bind. rewrite Hrun1, Hrun2, Hg1. reflexivity.
  - apply (draws_trans _ _ _ _ _ _ Hd1 Hd2).
Qed.

(** C4, as the code has it.  Let the first rejection loop accept its
    [k1]-th pair [(x, y)] and the second loop, drawing after it, its
    [k2]-th pair [(u, v)], and let the fuel last for both.  If the second
    point is not the origin ([w = u*u + v*v] is not zero),
    [random_rotation(axis=None)] returns [(x, y, s*u, s*v)] with
    [s = sqrt((1 - z) / w)], and over the reals that tuple has norm 1. *)
Theorem random_rotation_unit_norm fuel rng (wd : Scene Sim) k1 k2 :
  let g := generators wd rng in
  let g1 := skip (2 * S k1) g in
  let x := fst (pair_at g k1) in
  let y := snd (pair_at g k1) in
  let u := fst (pair_at g1 k2) in
  let v := snd (pair_at g1 k2) in
  let z := x * x + y * y in
  let w := u * u + v * v in
  let s := sqrt ((1 - z) / w) in
  first_in_disk g k1 ->
  first_in_disk g1 k2 ->
  (k1 < fuel)%nat ->
  (k2 < fuel)%nat ->
  w <> 0 ->
  exists wd',
    random_rotation fuel None rng wd = Ret (x, y, s * u, s * v) wd' /\
    draws rng (2 * S k2 + 2 * S k1) wd wd' /\
    x * x + y * y + (s * u) * (s * u) + (s * v) * (s * v) = 1.
Proof.
  intros g g1 x y u v z w s H1 H2 Hk1 Hk2 Hw.
  destruct (random_rotation_run fuel rng wd k1 k2 H1 H2 Hk1 Hk2)
    as (wd' & Hrun & Hd).
  exists wd'. split; [exact Hrun|]. split; [exact Hd|].
  - assert (Hz : z <= 1) by apply H1.
    assert (Hw0 : 0 <= w) by (unfold w; nra).
    assert (Hs : s * s = (1 - z) / w).
    { apply sqrt_sqrt. apply Rmult_le_pos; [lra|].
      apply Rlt_le, Rinv_0_lt_compat. lra. }
    replace (x * x + y * y + s * u * (s * u) + s * v * (s * v))
      with (z + s * s * w) by (unfold z, w; ring).
    rewrite Hs. field. exact Hw.
Qed.

(** A source that never produces a point of the unit disk: the first
    rejection loop never exits. *)
Lemma random_rotation_diverges fuel rng (wd : Scene Sim) :
  (forall k, ~ in_disk (pair_at (generators wd rng) k)) ->
  random_rotation fuel None rng wd = Diverge.
Proof.
  intros Hnever. unfold random_rotation, bind.
  rewrite disk_loop_never; [reflexivity|lra|exact Hnever].
Qed.

Lemma str_in_names (s : string) :
  str_in s ["X"; "Y"; "Z"]%string = false <->
  s <> "X"%string /\ s <> "Y"%string /\ s <> "Z"%string.
Proof.
  unfold str_in. cbn [existsb]. rewrite !orb_false_iff, !String.eqb_neq.
  tauto.
Qed.

(** C5, at the name "X" (in either case).  The table entry for "X" has four
    components, (1, 0, 0, 0), where "Y" and "Z" have three; the axis of an
    (axis, angle) pair must have three, so the call raises instead of
    returning a rotation about (1, 0, 0). *)
Theorem random_rotation_X_raises fuel rng (wd : Scene Sim) :
  dict_get axis_table (upper "x") = Some [1; 0; 0; 0] /\
  dict_get axis_table (upper "X") = Some [1; 0; 0; 0] /\
  exists msg wd',
    random_rotation fuel (Some (PyStr "X")) rng wd = Raise (ValueError msg) wd' /\
    draws rng 1 wd wd'.
Proof.
  split; [reflexivity|]. split; [reflexivity|].
  unfold random_rotation, bind. cbn [resolve_axis upper upper_ascii].
  change (str_in _ _) with true. cbv iota.
  change (dict_get axis_table _) with (Some [1; 0; 0; 0]). cbv iota.
  unfold ret at 1.
  destruct (uniform_spec rng 0 (2 * PI) wd two_pi_range) as (wd1 & -> & Hd).
  destruct (axis_of_three [1; 0; 0; 0]
              (0 + (2 * PI - 0)
                   * stream (generators wd rng) (cursor (generators wd rng))))
    as (msg & ->); [cbn; lia|].
  exists msg, wd1. split; [reflexivity|exact Hd].
Qed.

(** The names "Y" and "Z" reach the constructor with their basis vector and
    with an angle drawn from [0, 2*pi). *)
Lemma random_rotation_Y_Z fuel rng (wd : Scene Sim) (name : string) (e3 : list R) :
  (name, e3) = ("Y"%string, [0; 1; 0]) \/ (name, e3) = ("Z"%string, [0; 0; 1]) ->
  let angle := 0 + (2 * PI - 0)
                   * stream (generators wd rng) (cursor (generators wd rng)) in
  exists wd',
    draws rng 1 wd wd' /\
    random_rotation fuel (Some (PyStr name)) rng wd =
    match Quaternion_axis_angle (PyTuple e3) angle with
    | inl e => Raise e wd'
    | inr q => Ret q wd'
    end.
Proof.
  intros Hname angle.
  destruct (uniform_spec rng 0 (2 * PI) wd two_pi_range) as (wd1 & Hu & Hd).
  exists wd1. split; [exact Hd|].
  destruct Hname as [[= -> ->]|[= -> ->]];
    unfold random_rotation, bind; cbn [resolve_axis upper upper_ascii];
    change (str_in _ _) with true; cbv iota;
    [change (dict_get axis_table _) with (Some [0; 1; 0])
    |change (dict_get axis_table _) with (Some [0; 0; 1])];
    cbv iota; unfold ret at 1; rewrite Hu; fold angle;
    destruct (Quaternion_axis_angle _ angle); reflexivity.
Qed.

(** C6.  A string whose upper case is none of "X", "Y", "Z" skips the
    lookup and reaches [mathutils.Quaternion] unchanged; the constructor
    rejects a string axis, so [random_rotation] raises that error (after
    the angle has been drawn) and returns no quaternion. *)
Theorem random_rotation_invalid_axis fuel rng (wd : Scene Sim) (s : string) :
  upper s <> "X"%string ->
  upper s <> "Y"%string ->
  upper s <> "Z"%string ->
  exists e wd',
    random_rotation fuel (Some (PyStr s)) rng wd = Raise e wd' /\
    (exists angle, Quaternion_axis_angle (PyStr s) angle = inl e) /\
    draws rng 1 wd wd'.
Proof.
  intros HX HY HZ.
  assert (Hin : str_in (upper s) ["X"; "Y"; "Z"]%string = false)
    by (apply str_in_names; auto).
  unfold random_rotation, bind. cbn [resolve_axis]. rewrite Hin.
  unfold ret at 1.
  destruct (uniform_spec rng 0 (2 * PI) wd two_pi_range) as (wd1 & -> & Hd).
  destruct (axis_not_a_string s
              (0 + (2 * PI - 0)
                   * stream (generators wd rng) (cursor (generators wd rng))))
    as (e & He).
  exists e, wd1. rewrite He. split; [reflexivity|].
  split; [eexists; exact He|exact Hd].
Qed.

End RandomRotationFacts.

Lemma random_rotation_unit_norm_witness :
  let s := sqrt ((1 - (1/2 * (1/2) + 1/2 * (1/2))) / (3/5 * (3/5) + 4/5 * (4/5))) in
  exists wd',
    random_rotation 2 None 0%nat (Scenes.scene_with Scenes.three_pairs) =
      Ret (1/2, 1/2, s * (3/5), s * (4/5)) wd' /\
    1/2 * (1/2) + 1/2 * (1/2) + s * (3/5) * (s * (3/5)) + s * (4/5) * (s * (4/5)) = 1.
Proof.
  intros s.
  destruct (random_rotation_unit_norm 2 0%nat
              (Scenes.scene_with Scenes.three_pairs) 1 0)
    as (wd' & Hrun & _ & Hnorm).
  - split.
    + intros j Hj. assert (j = 0%nat) as -> by lia.
      unfold in_disk, pair_at; cbn. lra.
    + unfold in_disk, pair_at; cbn. lra.
  - split.
    + intros j Hj. lia.
    + unfold in_disk, pair_at; cbn. lra.
  - lia.
  - lia.
  - unfold pair_at; cbn. lra.
  - exists wd'. split; [exact Hrun|exact Hnorm].
Defined.

(** C4 as stated fails on an adversarial source: when every draw is 0.9 the
    first rejection loop rejects every pair, and no amount of fuel lets
    [random_rotation] come back. *)
Lemma random_rotation_may_not_return :
  ~ exists fuel,
      terminates (random_rotation fuel None 0%nat
                    (Scenes.scene_with Scenes.stuck_generator)).
Proof.
  intros [fuel Hterm].
  rewrite random_rotation_diverges in Hterm; [exact Hterm|].
  intros k. unfold in_disk, pair_at; cbn. lra.
Qed.

Lemma random_rotation_invalid_axis_witness :
  exists e wd',
    random_rotation 0 (Some (PyStr "W")) 0%nat
      (Scenes.scene_with Scenes.quarter_generator) = Raise e wd'.
Proof.
  destruct (random_rotation_invalid_axis 0 0%nat
              (Scenes.scene_with Scenes.quarter_generator) "W")
    as (e & wd' & Hrun & _); try (cbv; discriminate).
  exists e, wd'. exact Hrun.
Defined.

(** ** Vectors and boxes *)











Lemma corners_eight (b : box) :
  corners b =
  let '((x0, y0, z0), (x1, y1, z1)) := b in
  [ (x0, y0, z0); (x0, y0, z1); (x0, y1, z0); (x0, y1, z1);
    (x1, y0, z0); (x1, y0, z1); (x1, y1, z0); (x1, y1, z1) ].
Proof. destruct b as [[[x0 y0] z0] [[x1 y1] z1]]. reflexivity. Qed.

(** ** The samplers *)

Section SamplerFacts.

Context {Sim : Type} {mathutils : Mathutils}.
Implicit Types (rng : rng_ref) (obj : obj_ref) (fuel : nat) (wd : Scene Sim).

Lemma rotated_corners_length o : List.length (rotated_corners o) = 8%nat.
Proof.
  unfold rotated_corners. rewrite length_map, corners_eight.
  destruct (bounds o) as [[[x0 y0] z0] [[x1 y1] z1]]. reflexivity.
Qed.


Lemma rotated_corners_cong (o o' : PhysicalObject) :
  quaternion o = quaternion o' -> bounds o = bounds o' ->
  rotated_corners o = rotated_corners o'.
Proof. unfold rotated_corners. now intros -> ->. Qed.

Lemma extent_fits_cong region (o o' : PhysicalObject) :
  quaternion o = quaternion o' -> bounds o = bounds o' ->
  extent_fits region o -> extent_fits region o'.
Proof.
  intros Hq Hb. unfold extent_fits, rotated_bounds.
  now rewrite (rotated_corners_cong o o' Hq Hb).
Qed.

Lemma extent_fits_effective region (o : PhysicalObject) :
  extent_fits region o <->
  vec3_le (fst (effective_region region o)) (snd (effective_region region o)).
Proof.
  unfold extent_fits, effective_region.
  destruct region as [[[rx0 ry0] rz0] [[rx1 ry1] rz1]].
  destruct (rotated_bounds o) as [[[lx ly] lz] [[hx hy] hz]].
  cbn. lra.
Qed.

Lemma extent_fits_dec region (o : PhysicalObject) :
  {extent_fits region o} + {~ extent_fits region o}.
Proof.
  unfold extent_fits.
  destruct (vec3_sub (snd (rotated_bounds o)) (fst (rotated_bounds o)))
    as [[ax ay] az].
  destruct (vec3_sub (snd region) (fst region)) as [[bx by_] bz].
  cbn [vec3_le].
  destruct (Rle_dec ax bx), (Rle_dec ay by_), (Rle_dec az bz);
    first [left; tauto | right; tauto].
Qed.

(** What [position_sampler] computes when the rotated extent fits in the
    region: the position is the affine image of three successive draws in
    the effective region. *)
Lemma position_sampler_run region obj rng wd :
  let o := objects wd obj in
  let g := generators wd rng in
  let eff := effective_region region o in
  let lo := fst eff in
  let hi := snd eff in
  extent_fits region o ->
  exists wd3,
    draws rng 3 wd wd3 /\
    position_sampler region obj rng wd =
    Ret tt
      (set_object obj
         (with_position o
            (fst (fst lo) + (fst (fst hi) - fst (fst lo)) * stream g (cursor g),
             snd (fst lo) + (snd (fst hi) - snd (fst lo)) * stream g (S (cursor g)),
             snd lo + (snd hi - snd lo) * stream g (S (S (cursor g)))))
         wd3).
Proof.
  intros o g eff lo hi Hfits. apply extent_fits_effective in Hfits.
  subst lo hi eff o g.
  unfold position_sampler, bind, get_object.
  pose proof (rotated_corners_length (objects wd obj)) as Hlen.
  unfold effective_region, rotated_bounds in Hfits |- *.
  destruct (rotated_corners (objects wd obj)) as [|p rest]; [discriminate|].
  cbn [min_axis0 max_axis0 ret fst snd] in Hfits |- *.
  match goal with
  | |- context [uniform_vec3 rng ?l ?h wd] =>
      destruct (uniform_vec3_spec rng l h wd Hfits) as (wd3 & -> & Hd)
  end.
  exists wd3. split; [exact Hd|].
  unfold set_position. destruct Hd as (_ & _ & -> & _). reflexivity.
Qed.

(** When the rotated extent does not fit, the range handed to
    [rng.uniform] has a negative component: the call raises before any draw
    and the world is as it was. *)
Lemma position_sampler_refused region obj rng wd :
  ~ extent_fits region (objects wd obj) ->
  position_sampler region obj rng wd = Raise (ValueError "high - low < 0") wd.
Proof.
  intros Hnot. rewrite extent_fits_effective in Hnot.
  unfold position_sampler, bind, get_object.
  pose proof (rotated_corners_length (objects wd obj)) as Hlen.
  unfold effective_region, rotated_bounds in Hnot.
  destruct (rotated_corners (objects wd obj)) as [|p rest]; [discriminate|].
  cbn [min_axis0 max_axis0 ret fst snd] in Hnot |- *.
  now rewrite uniform_vec3_refused.
Qed.



End SamplerFacts.

(** ** Frame conditions *)

Section Frames.

Context {Sim : Type} {mathutils : Mathutils}.
Implicit Types (rng : rng_ref) (obj : obj_ref) (fuel : nat) (wd : Scene Sim).

Lemma advances_refl rng wd : advances rng wd wd.
Proof. exists 0%nat. apply draws_refl. Qed.

Lemma advances_trans rng wd wd1 wd2 :
  advances rng wd wd1 -> advances rng wd1 wd2 -> advances rng wd wd2.
Proof.
  intros [n Hn] [m Hm]. exists (m + n)%nat. eapply draws_trans; eassumption.
Qed.

Lemma disk_loop_advances fuel : forall rng xyz wd,
  called (advances rng) wd (disk_loop fuel rng xyz wd).
Proof.
  induction fuel as [|fuel IH]; intros rng [[x y] z] wd;
    destruct (Rgt_dec z 1) as [Hz|Hz];
    try (rewrite disk_loop_exit by assumption; apply advances_refl).
  - rewrite disk_loop_out_of_fuel by assumption. exact I.
  - rewrite disk_loop_step by assumption.
    destruct (uniform_size2_spec rng wd) as (wd1 & -> & Hd).
    destruct (pair_at (generators wd rng) 0) as [x' y'].
    specialize (IH rng (x', y', x' * x' + y' * y') wd1).
    destruct (disk_loop fuel rng (x', y', x' * x' + y' * y') wd1); cbn in *;
      try exact I; (eapply advances_trans; [exists 2%nat; exact Hd|exact IH]).
Qed.

Lemma random_rotation_advances fuel axis rng wd :
  called (advances rng) wd (random_rotation fuel axis rng wd).
Proof.
  destruct axis as [a|]; unfold random_rotation, bind.
  - assert (Hres : exists a', resolve_axis a wd = Ret a' wd
                   \/ exists e, resolve_axis a wd = Raise e wd).
    { destruct a as [s|v]; cbn [resolve_axis].
      - destruct (str_in (upper s) _).
        + destruct (dict_get axis_table (upper s)) as [v|].
          * exists (PyTuple v). now left.
          * exists (PyStr s). right. eexists. reflexivity.
        + exists (PyStr s). now left.
      - exists (PyTuple v). now left. }
    destruct Hres as (a' & [-> | (e & ->)]); [|apply advances_refl].
    destruct (uniform_spec rng 0 (2 * PI) wd two_pi_range) as (wd1 & -> & Hd).
    destruct (Quaternion_axis_angle a' _); cbn; exists 1%nat; exact Hd.
  - pose proof (disk_loop_advances fuel rng (0, 0, 2) wd) as H1.
    destruct (disk_loop fuel rng (0, 0, 2) wd) as [[[x y] z] wd1|e wd1|];
      cbn in H1 |- *; try assumption.
    pose proof (disk_loop_advances fuel rng (0, 0, 2) wd1) as H2.
    destruct (disk_loop fuel rng (0, 0, 2) wd1) as [[[u v] w] wd2|e wd2|];
      cbn in H2 |- *; try exact I; eapply advances_trans; eassumption.
Qed.

(** C9.  A call of the closure of [rotation_sampler] that returns has
    changed, among the objects, only the quaternion of [obj]; one that
    raises has changed no object.  A call of the closure of
    [position_sampler] comes back: when it returns it has changed, among the
    objects, only the position of [obj]; when it raises (the rotated extent
    does not fit in the region) it has changed nothing at all.  (The region
    is captured by value: the closure is the same function of the same
    region at every call.) *)
Theorem samplers_frame fuel axis region obj rng wd :
  match rotation_sampler fuel axis obj rng wd with
  | Ret _ wd' => only_quaternion_changed obj wd wd'
  | Raise _ wd' => objects wd' = objects wd
  | Diverge => True
  end /\
  match position_sampler region obj rng wd with
  | Ret _ wd' => only_position_changed obj wd wd'
  | Raise _ wd' => wd' = wd
  | Diverge => False
  end.
Proof.
  split.
  - unfold rotation_sampler, bind.
    pose proof (random_rotation_advances fuel axis rng wd) as Hadv.
    destruct (random_rotation fuel axis rng wd) as [q wd1|e wd1|];
      cbn in Hadv; try exact I.
    + destruct Hadv as (n & _ & _ & Hobj & _).
      unfold set_quaternion, only_quaternion_changed.
      cbn [objects set_object]. rewrite upd_same, Hobj.
      repeat split. intros o Ho. now apply upd_other.
    + destruct Hadv as (n & _ & _ & Hobj & _). exact Hobj.
  - destruct (extent_fits_dec region (objects wd obj)) as [Hfits|Hnot].
    + destruct (position_sampler_run region obj rng wd Hfits) as (wd3 & Hd & ->).
      destruct Hd as (_ & _ & Hobj & _).
      unfold only_position_changed. cbn [objects set_object].
      rewrite upd_same, Hobj. repeat split. intros o Ho. now apply upd_other.
    + rewrite (position_sampler_refused region obj rng wd Hnot). reflexivity.
Qed.

End Frames.

(** ** Termination *)

Section TrialBudget.

Context {World Asset Rng : Type}.
Implicit Types (asset : Asset) (rng : Rng) (w : World).
Implicit Types (samplers : list (sampler World Asset Rng)).
Implicit Types (cond : condition World Asset).

Lemma stops_within_terminates n asset samplers cond rng w o :
  stops_within n asset samplers cond rng w o -> terminates o.
Proof.
  intros (k & w1 & _ & _ & [[_ ->]|[(_ & w2 & _ & ->)|(_ & e & w2 & _ & ->)]]);
    exact I.
Qed.

Lemma stops_within_next n asset samplers cond rng w w1 o :
  trial asset samplers cond rng w = Ret true w1 ->
  stops_within n asset samplers cond rng w1 o ->
  stops_within (S n) asset samplers cond rng w o.
Proof.
  intros Htrial (k & w2 & Hk & Hrej & Hend).
  exists (S k), w2. split; [lia|]. split; [econstructor; eassumption|].
  destruct Hend as [[-> ->]|[(Hlt & Hacc)|(Hlt & Hexn)]].
  - left. auto.
  - right; left. split; [lia|exact Hacc].
  - right; right. split; [lia|exact Hexn].
Qed.

(** The loop stops within its budget as long as every trial comes back;
    [Inv] is an invariant of the worlds in which trials are started. *)
Lemma trial_loop_stops (Inv : World -> Prop) asset samplers cond rng :
  (forall w, Inv w ->
     match trial asset samplers cond rng w with
     | Ret _ w' => Inv w'
     | Raise _ _ => True
     | Diverge => False
     end) ->
  forall n w, Inv w ->
    stops_within n asset samplers cond rng w
      (trial_loop n asset samplers cond rng w).
Proof.
  intros Hstep. induction n as [|n IH]; intros w Hw.
  - exists 0%nat, w. split; [lia|]. split; [constructor|]. left. auto.
  - rewrite trial_loop_step. specialize (Hstep w Hw).
    destruct (trial asset samplers cond rng w) as [[|] w1|e w1|] eqn:Htrial.
    + eapply stops_within_next; [exact Htrial|]. now apply IH.
    + exists 0%nat, w. split; [lia|]. split; [constructor|].
      right; left. split; [lia|]. exists w1. auto.
    + exists 0%nat, w. split; [lia|]. split; [constructor|].
      right; right. split; [lia|]. exists e, w1. auto.
    + contradiction.
Qed.

Lemma apply_samplers_terminates samplers asset rng :
  (forall s, In s samplers -> forall a r w, terminates (s a r w)) ->
  forall w, terminates (apply_samplers samplers asset rng w).
Proof.
  induction samplers as [|s rest IH]; intros Hs w.
  - exact I.
  - cbn [apply_samplers]. unfold bind.
    pose proof (Hs s (or_introl eq_refl) asset rng w) as Hterm.
    destruct (s asset rng w) as [[] w1|e w1|]; [|exact I|contradiction].
    apply IH. intros s' Hin. apply Hs. now right.
Qed.

Lemma resample_while_stops asset samplers cond max_trials rng w :
  (forall s, In s samplers -> forall a r w', terminates (s a r w')) ->
  (forall a w', terminates (cond a w')) ->
  stops_within (Z.to_nat max_trials) asset samplers cond rng w
    (resample_while asset samplers cond (Some max_trials) rng w).
Proof.
  intros Hs Hc. rewrite resample_while_unfold.
  apply (trial_loop_stops (fun _ => True)); [|exact I].
  intros w' _. unfold trial, bind.
  pose proof (apply_samplers_terminates samplers asset rng Hs w') as H1.
  destruct (apply_samplers samplers asset rng w') as [[] w1|e w1|];
    [|exact I|contradiction].
  pose proof (Hc asset w1) as H2.
  destruct (cond asset w1); [exact I|exact I|contradiction].
Qed.

End TrialBudget.

Lemma fair_skip n g : fair g -> fair (skip n g).
Proof. intros H. exact H. Qed.

Lemma in_disk_dec p : {in_disk p} + {~ in_disk p}.
Proof. unfold in_disk. apply Rle_dec. Qed.

Lemma first_in_disk_below g n :
  (forall j, (j < n)%nat -> ~ in_disk (pair_at g j)) \/
  (exists k, (k < n)%nat /\ first_in_disk g k).
Proof.
  induction n as [|n [IH|(k & Hk & Hfirst)]].
  - left. intros j Hj. lia.
  - destruct (in_disk_dec (pair_at g n)) as [Hin|Hout].
    + right. exists n. split; [lia|]. split; assumption.
    + left. intros j Hj. destruct (Nat.eq_dec j n) as [->|Hne]; [exact Hout|].
      apply IH. lia.
  - right. exists k. split; [lia|exact Hfirst].
Qed.

Lemma fair_first g : fair g -> exists k, first_in_disk g k.
Proof.
  intros Hfair. destruct (Hfair (cursor g)) as (n & Hn).
  destruct (first_in_disk_below g (S n)) as [Hnone|(k & _ & Hk)].
  - exfalso. apply (Hnone n); [lia|exact Hn].
  - exists k. exact Hk.
Qed.

Section PlacementTermination.

Context {Sim : Type} {mathutils : Mathutils}.
Implicit Types (rng : rng_ref) (obj : obj_ref) (fuel : nat) (wd : Scene Sim).

(** More fuel does not change a run that came back. *)
Lemma disk_loop_mono fuel : forall fuel' rng xyz wd,
  (fuel <= fuel')%nat ->
  terminates (disk_loop fuel rng xyz wd) ->
  disk_loop fuel' rng xyz wd = disk_loop fuel rng xyz wd.
Proof.
  induction fuel as [|fuel IH]; intros fuel' rng [[x y] z] wd Hle Hterm;
    destruct (Rgt_dec z 1) as [Hz|Hz];
    try (now rewrite !disk_loop_exit by assumption).
  - rewrite disk_loop_out_of_fuel in Hterm by assumption. contradiction.
  - destruct fuel' as [|fuel']; [lia|].
    rewrite !disk_loop_step in * by assumption.
    destruct (uniform_size2 rng wd) as [[x' y'] wd1|e wd1|]; try reflexivity.
    apply IH; [lia|exact Hterm].
Qed.

Lemma random_rotation_mono fuel fuel' axis rng wd :
  (fuel <= fuel')%nat ->
  terminates (random_rotation fuel axis rng wd) ->
  random_rotation fuel' axis rng wd = random_rotation fuel axis rng wd.
Proof.
  intros Hle. destruct axis as [a|]; [reflexivity|].
  unfold random_rotation, bind. intros Hterm.
  destruct (disk_loop fuel rng (0, 0, 2) wd) as [[[x y] z] wd1|e wd1|] eqn:H1;
    try contradiction.
  - rewrite (disk_loop_mono fuel fuel') by (rewrite ?H1; auto; exact I).
    rewrite H1.
    destruct (disk_loop fuel rng (0, 0, 2) wd1) as [[[u v] w] wd2|e wd2|] eqn:H2;
      try contradiction;
      rewrite (disk_loop_mono fuel fuel') by (rewrite ?H2; auto; exact I);
      rewrite H2; reflexivity.
  - rewrite (disk_loop_mono fuel fuel') by (rewrite ?H1; auto; exact I).
    rewrite H1. reflexivity.
Qed.

(** With a fair source, [random_rotation(axis=None)] returns once the fuel
    is large enough. *)
Lemma random_rotation_fair rng wd :
  fair (generators wd rng) ->
  exists fuel q wd',
    random_rotation fuel None rng wd = Ret q wd' /\ advances rng wd wd'.
Proof.
  intros Hfair.
  destruct (fair_first _ Hfair) as (k1 & H1).
  destruct (fair_first (skip (2 * S k1) (generators wd rng))
              (fair_skip _ _ Hfair)) as (k2 & H2).
  destruct (random_rotation_run (S (Nat.max k1 k2)) rng wd k1 k2 H1 H2)
    as (wd' & Hrun & Hd); try lia.
  do 3 eexists. split; [exact Hrun|]. eexists. exact Hd.
Qed.

Lemma advances_stream rng wd wd' :
  advances rng wd wd' ->
  stream (generators wd' rng) = stream (generators wd rng).
Proof. intros (n & -> & _). reflexivity. Qed.

(** One trial of [move_until_no_overlap], spelled out. *)
Lemma placement_trial fuel asset simulator region rng wd :
  trial asset [rotation_sampler fuel None; position_sampler region]
    (check_overlap simulator) rng wd =
  match rotation_sampler fuel None asset rng wd with
  | Ret _ wd1 =>
      match position_sampler region asset rng wd1 with
      | Ret _ wd2 => check_overlap simulator asset wd2
      | Raise e wd2 => Raise e wd2
      | Diverge => Diverge
      end
  | Raise e wd1 => Raise e wd1
  | Diverge => Diverge
  end.
Proof.
  unfold trial. cbn [apply_samplers]. unfold bind at 1 2.
  destruct (rotation_sampler fuel None asset rng wd) as [[] wd1|e wd1|];
    try reflexivity.
  unfold bind at 1.
  destruct (position_sampler region asset rng wd1) as [[] wd2|e wd2|];
    reflexivity.
Qed.

Lemma rotation_sampler_mono fuel fuel' axis obj rng wd :
  (fuel <= fuel')%nat ->
  terminates (rotation_sampler fuel axis obj rng wd) ->
  rotation_sampler fuel' axis obj rng wd = rotation_sampler fuel axis obj rng wd.
Proof.
  intros Hle. unfold rotation_sampler, bind. intros Hterm.
  rewrite (random_rotation_mono fuel fuel'); [reflexivity|exact Hle|].
  destruct (random_rotation fuel axis rng wd); auto; exact I.
Qed.

Lemma placement_trial_mono fuel fuel' asset simulator region rng wd :
  (fuel <= fuel')%nat ->
  terminates (trial asset [rotation_sampler fuel None; position_sampler region]
                (check_overlap simulator) rng wd) ->
  trial asset [rotation_sampler fuel' None; position_sampler region]
    (check_overlap simulator) rng wd =
  trial asset [rotation_sampler fuel None; position_sampler region]
    (check_overlap simulator) rng wd.
Proof.
  intros Hle. rewrite !placement_trial. intros Hterm.
  rewrite (rotation_sampler_mono fuel fuel'); [reflexivity|exact Hle|].
  destruct (rotation_sampler fuel None asset rng wd); auto; exact I.
Qed.

(** In a world whose generator is fair, a trial comes back once the fuel is
    large enough, and it leaves the generator fair. *)
Lemma placement_trial_fair asset simulator region rng wd :
  well_behaved simulator rng ->
  fair (generators wd rng) ->
  exists fuel,
    match trial asset [rotation_sampler fuel None; position_sampler region]
            (check_overlap simulator) rng wd with
    | Ret _ wd' => fair (generators wd' rng)
    | Raise _ _ => True
    | Diverge => False
    end.
Proof.
  intros Hsim Hfair.
  destruct (random_rotation_fair rng wd Hfair) as (fuel & q & wd1 & Hrot & Hadv).
  exists fuel. rewrite placement_trial.
  unfold rotation_sampler at 1, bind. rewrite Hrot. unfold set_quaternion.
  match goal with
  | |- context [position_sampler region asset rng ?w] =>
      set (wd2 := w) in *
  end.
  destruct (extent_fits_dec region (objects wd2 asset)) as [Hfits|Hnot];
    [|rewrite (position_sampler_refused region asset rng wd2 Hnot); exact I].
  destruct (position_sampler_run region asset rng wd2 Hfits) as (wd3 & Hd3 & ->).
  match goal with
  | |- context [check_overlap simulator asset ?w] =>
      pose proof (Hsim asset w) as Hc;
      destruct (check_overlap simulator asset w) as [b wd4|e wd4|];
      [|exact I|contradiction]
  end.
  unfold fair in *. rewrite Hc. cbn [generators set_object].
  destruct Hd3 as (-> & _). cbn [skip stream].
  unfold wd2. cbn [generators set_object].
  rewrite (advances_stream _ _ _ Hadv). exact Hfair.
Qed.

(** With a fair source and a well-behaved simulator, the loop of
    [move_until_no_overlap] stops within its budget for every large enough
    fuel. *)
Lemma placement_loop_stops asset simulator region rng :
  well_behaved simulator rng ->
  forall n wd,
    fair (generators wd rng) ->
    exists fuel0, forall fuel, (fuel0 <= fuel)%nat ->
      stops_within n asset
        [rotation_sampler fuel None; position_sampler region]
        (check_overlap simulator) rng wd
        (trial_loop n asset
           [rotation_sampler fuel None; position_sampler region]
           (check_overlap simulator) rng wd).
Proof.
  intros Hsim. induction n as [|n IH]; intros wd Hfair.
  - exists 0%nat. intros fuel _.
    exists 0%nat, wd. split; [lia|]. split; [constructor|]. left. auto.
  - destruct (placement_trial_fair asset simulator region rng wd Hsim Hfair)
      as (f1 & Htrial).
    destruct (trial asset [rotation_sampler f1 None; position_sampler region]
                (check_overlap simulator) rng wd) as [[|] wd1|e wd1|] eqn:H1;
      try contradiction.
    + destruct (IH wd1 Htrial) as (f2 & Hrest).
      exists (Nat.max f1 f2). intros fuel Hfuel.
      eapply stops_within_next.
      * rewrite (placement_trial_mono f1 fuel) by (rewrite ?H1; try lia; exact I).
        exact H1.
      * rewrite trial_loop_step.
        rewrite (placement_trial_mono f1 fuel) by (rewrite ?H1; try lia; exact I).
        rewrite H1. apply Hrest. lia.
    + exists f1. intros fuel Hfuel. rewrite trial_loop_step.
      assert (H1' : trial asset
                      [rotation_sampler fuel None; position_sampler region]
                      (check_overlap simulator) rng wd = Ret false wd1).
      { rewrite (placement_trial_mono f1 fuel) by (rewrite ?H1; try lia; exact I).
        exact H1. }
      rewrite H1'.
      exists 0%nat, wd. split; [lia|]. split; [constructor|].
      right; left. split; [lia|]. exists wd1. auto.
    + exists f1. intros fuel Hfuel. rewrite trial_loop_step.
      assert (H1' : trial asset
                      [rotation_sampler fuel None; position_sampler region]
                      (check_overlap simulator) rng wd = Raise e wd1).
      { rewrite (placement_trial_mono f1 fuel) by (rewrite ?H1; try lia; exact I).
        exact H1. }
      rewrite H1'.
      exists 0%nat, wd. split; [lia|]. split; [constructor|].
      right; right. split; [lia|]. exists e, wd1. auto.
Qed.

(** With a source that never produces a point of the unit disk, the first
    trial never comes back. *)
Lemma placement_diverges fuel asset simulator spawn_region max_trials rng wd :
  (forall k, ~ in_disk (pair_at (generators wd rng) k)) ->
  (1 <= or_default max_trials 100)%Z ->
  move_until_no_overlap fuel asset simulator spawn_region max_trials rng wd =
  Diverge.
Proof.
  intros Hnever Hmax. unfold move_until_no_overlap.
  rewrite resample_while_unfold.
  destruct (Z.to_nat (or_default max_trials 100%Z)) as [|n] eqn:Hn; [lia|].
  rewrite trial_loop_step, placement_trial.
  unfold rotation_sampler, bind.
  rewrite (random_rotation_diverges fuel rng wd Hnever). reflexivity.
Qed.

End PlacementTermination.

(** ** [move_until_no_overlap] *)


(** C7, as the code has it.  [resample_while] stops within [max_trials]
    trials, by returning or by raising, whenever every call of a sampler and
    of the condition comes back.  [move_until_no_overlap] does so, once the
    fuel is large enough, when the overlap check is well behaved and the
    source is fair.  The rejection loops of [random_rotation] are not
    bounded: on a source that never produces a point of the unit disk,
    [move_until_no_overlap] with at least one trial never comes back. *)
Theorem placement_terminates :
  (forall (World Asset Rng : Type) (asset : Asset)
          (samplers : list (sampler World Asset Rng))
          (cond : condition World Asset) (max_trials : Z) (rng : Rng)
          (w : World),
      (forall s, In s samplers -> forall a r w', terminates (s a r w')) ->
      (forall a w', terminates (cond a w')) ->
      stops_within (Z.to_nat max_trials) asset samplers cond rng w
        (resample_while asset samplers cond (Some max_trials) rng w)) /\
  (forall (Sim : Type) (mathutils : Mathutils) (asset : obj_ref)
          (simulator : Simulator) (spawn_region : option box)
          (max_trials : option Z) (rng : rng_ref) (wd : Scene Sim),
      well_behaved simulator rng ->
      fair (generators wd rng) ->
      exists fuel0, forall fuel, (fuel0 <= fuel)%nat ->
        stops_within (Z.to_nat (or_default max_trials 100%Z)) asset
          [rotation_sampler fuel None;
           position_sampler (or_default spawn_region default_spawn_region)]
          (check_overlap simulator) rng wd
          (move_until_no_overlap fuel asset simulator spawn_region max_trials
             rng wd)) /\
  (forall (Sim : Type) (mathutils : Mathutils) (asset : obj_ref)
          (simulator : Simulator) (spawn_region : option box)
          (max_trials : option Z) (rng : rng_ref) (wd : Scene Sim),
      (forall k, ~ in_disk (pair_at (generators wd rng) k)) ->
      (1 <= or_default max_trials 100)%Z ->
      forall fuel,
        move_until_no_overlap fuel asset simulator spawn_region max_trials
          rng wd = Diverge).
Proof.
  split; [|split].
  - intros. now apply resample_while_stops.
  - intros Sim mathutils asset simulator spawn_region max_trials rng wd Hsim Hfair.
    unfold move_until_no_overlap.
    destruct (placement_loop_stops asset simulator
                (or_default spawn_region default_spawn_region) rng Hsim
                (Z.to_nat (or_default max_trials 100%Z)) wd Hfair)
      as (fuel0 & Hstops).
    exists fuel0. intros fuel Hfuel. rewrite resample_while_unfold.
    now apply Hstops.
  - intros. now apply placement_diverges.
Qed.

(** ** The statements at concrete inputs *)

Lemma quarter_generator_fair : fair Scenes.quarter_generator.
Proof. intros c. exists 0%nat. unfold in_disk; cbn. lra. Qed.



Lemma placement_terminates_witness :
  terminates
    (resample_while 7%nat [Logged.log_sampler 0] Logged.always (Some 2%Z) tt []) /\
  exists fuel0, forall fuel, (fuel0 <= fuel)%nat ->
    terminates
      (move_until_no_overlap fuel 0%nat Scenes.always_overlapping None
         (Some 2%Z) 0%nat (Scenes.scene_with Scenes.quarter_generator)).
Proof.
  destruct placement_terminates as (Hloop & Hmove & _). split.
  - eapply stops_within_terminates. apply Hloop.
    + intros s [<-|[]] a r w'. exact I.
    + intros a w'. exact I.
  - destruct (Hmove unit reference_mathutils 0%nat Scenes.always_overlapping
                None (Some 2%Z) 0%nat
                (Scenes.scene_with Scenes.quarter_generator))
      as (fuel0 & Hstops).
    + intros a wd. reflexivity.
    + exact quarter_generator_fair.
    + exists fuel0. intros fuel Hfuel.
      eapply stops_within_terminates. apply Hstops. exact Hfuel.
Defined.

(** C7 as stated fails on an adversarial source: when every draw is 0.9,
    [move_until_no_overlap] with its default budget of 100 trials is still
    in the first rejection loop of its first trial, whatever the fuel. *)
Lemma placement_may_not_terminate :
  ~ exists fuel,
      terminates
        (move_until_no_overlap fuel 0%nat Scenes.never_overlapping None None
           0%nat (Scenes.scene_with Scenes.stuck_generator)).
Proof.
  intros [fuel Hterm].
  rewrite placement_diverges in Hterm; [exact Hterm| |cbn; lia].
  intros k. unfold in_disk, pair_at; cbn. lra.
Qed.

(** ** Further properties of [resample_while] *)

Section ResampleWhileMore.

Context {World Asset Rng : Type}.
Implicit Types (asset : Asset) (rng : Rng) (w : World).
Implicit Types (samplers : list (sampler World Asset Rng)).
Implicit Types (cond : condition World Asset).

Lemma apply_samplers_app_run pre post asset rng w :
  apply_samplers (pre ++ post) asset rng w =
  match apply_samplers pre asset rng w with
  | Ret _ w1 => apply_samplers post asset rng w1
  | Raise e w1 => Raise e w1
  | Diverge => Diverge
  end.
Proof.
  revert w. induction pre as [|s pre IH]; intros w.
  - reflexivity.
  - cbn [app apply_samplers]. unfold bind.
    destruct (s asset rng w) as [[] w1|e w1|]; try reflexivity. apply IH.
Qed.

(** Every run of the loop is of one of four kinds: it stops within its
    budget, or some trial within the budget diverges. *)
Lemma trial_loop_cases asset samplers cond rng n : forall w,
  stops_within n asset samplers cond rng w
    (trial_loop n asset samplers cond rng w) \/
  (trial_loop n asset samplers cond rng w = Diverge /\
   exists k w1, (k < n)%nat /\
     rejected_trials asset samplers cond rng k w w1 /\
     trial asset samplers cond rng w1 = Diverge).
Proof.
  induction n as [|n IH]; intros w.
  - left. exists 0%nat, w. split; [lia|]. split; [constructor|]. left. auto.
  - rewrite trial_loop_step.
    destruct (trial asset samplers cond rng w) as [[|] w1|e w1|] eqn:Htrial.
    + destruct (IH w1) as [Hstop|(Hdiv & k & w2 & Hk & Hrej & Hd)].
      * left. eapply stops_within_next; eassumption.
      * right. split; [exact Hdiv|]. exists (S k), w2.
        split; [lia|]. split; [econstructor; eassumption|exact Hd].
    + left. exists 0%nat, w. split; [lia|]. split; [constructor|].
      right; left. split; [lia|]. exists w1. auto.
    + left. exists 0%nat, w. split; [lia|]. split; [constructor|].
      right; right. split; [lia|]. exists e, w1. auto.
    + right. split; [reflexivity|]. exists 0%nat, w.
      split; [lia|]. split; [constructor|exact Htrial].
Qed.

Lemma trial_never_raises asset samplers cond rng w e w' :
  (forall s, In s samplers -> sampler_never_raises s) ->
  condition_never_raises cond ->
  trial asset samplers cond rng w <> Raise e w'.
Proof.
  intros Hs Hc. unfold trial, bind.
  assert (Happ : forall w0 e0 w0',
             apply_samplers samplers asset rng w0 <> Raise e0 w0').
  { clear w. induction samplers as [|s rest IH]; intros w0 e0 w0'.
    - discriminate.
    - cbn [apply_samplers]. unfold bind.
      destruct (s asset rng w0) as [[] w1|e1 w1|] eqn:Hrun.
      + apply IH. intros s' Hin. apply Hs. now right.
      + exfalso. exact (Hs s (or_introl eq_refl) _ _ _ _ _ Hrun).
      + discriminate. }
  destruct (apply_samplers samplers asset rng w) as [[] w1|e1 w1|] eqn:Hrun.
  - apply Hc.
  - exfalso. exact (Happ _ _ _ Hrun).
  - discriminate.
Qed.

(** X1.  An exception raised by a sampler is neither caught nor wrapped:
    when, after [k < max_trials] rejected trials, the samplers [pre] have
    run and the next sampler raises [e], [resample_while] raises [e] in the
    world of that raise.  The statement holds for all later samplers [post]
    and all conditions, so they are not called in that trial. *)
Theorem resample_while_sampler_raises asset pre s post cond max_trials rng
  k w w0 w1 w2 e :
  rejected_trials asset (pre ++ s :: post) cond rng k w w0 ->
  (Z.of_nat k < max_trials)%Z ->
  apply_samplers pre asset rng w0 = Ret tt w1 ->
  s asset rng w1 = Raise e w2 ->
  resample_while asset (pre ++ s :: post) cond (Some max_trials) rng w =
  Raise e w2.
Proof.
  intros Hrej Hk Hpre Hs. rewrite resample_while_unfold.
  replace (Z.to_nat max_trials)
    with (k + S (Z.to_nat max_trials - S k))%nat by lia.
  rewrite (trial_loop_rejected _ _ _ _ _ _ _ Hrej), trial_loop_step.
  unfold trial, bind. rewrite apply_samplers_app_run, Hpre.
  cbn [apply_samplers]. unfold bind. rewrite Hs. reflexivity.
Qed.

(** X2.  An exception raised by the condition propagates in the same way:
    after [k < max_trials] rejected trials, when the samplers have run and
    the condition raises [e], [resample_while] raises [e]. *)
Theorem resample_while_condition_raises asset samplers cond max_trials rng
  k w w0 w1 w2 e :
  rejected_trials asset samplers cond rng k w w0 ->
  (Z.of_nat k < max_trials)%Z ->
  apply_samplers samplers asset rng w0 = Ret tt w1 ->
  cond asset w1 = Raise e w2 ->
  resample_while asset samplers cond (Some max_trials) rng w = Raise e w2.
Proof.
  intros Hrej Hk Hrun Hc. rewrite resample_while_unfold.
  replace (Z.to_nat max_trials)
    with (k + S (Z.to_nat max_trials - S k))%nat by lia.
  rewrite (trial_loop_rejected _ _ _ _ _ _ _ Hrej), trial_loop_step.
  unfold trial, bind. rewrite Hrun, Hc. reflexivity.
Qed.

(** X3.  Sampler lists compose by concatenation: applying [pre ++ post] is
    applying [pre] and then, if that returned, [post]. *)
Theorem apply_samplers_app pre post asset rng w :
  apply_samplers (pre ++ post) asset rng w =
  (apply_samplers pre asset rng ;;; apply_samplers post asset rng) w.
Proof.
  rewrite apply_samplers_app_run. unfold bind.
  destruct (apply_samplers pre asset rng w) as [[] w1|e w1|]; reflexivity.
Qed.

Lemma trial_loop_accept_mono asset samplers cond rng n : forall m w w',
  trial_loop n asset samplers cond rng w = Ret tt w' ->
  (n <= m)%nat ->
  trial_loop m asset samplers cond rng w = Ret tt w'.
Proof.
  induction n as [|n IH]; intros m w w' Hrun Hle.
  - discriminate.
  - destruct m as [|m]; [lia|]. rewrite trial_loop_step in Hrun |- *.
    destruct (trial asset samplers cond rng w) as [[|] w1|e w1|];
      try discriminate; try exact Hrun.
    apply IH; [exact Hrun|lia].
Qed.

(** X4.  An accepted placement does not depend on the budget: if
    [resample_while] returns with [max_trials = n], it returns the same
    world with every larger budget. *)
Theorem resample_while_budget_monotone asset samplers cond rng n m w w' :
  resample_while asset samplers cond (Some n) rng w = Ret tt w' ->
  (n <= m)%Z ->
  resample_while asset samplers cond (Some m) rng w = Ret tt w'.
Proof.
  rewrite !resample_while_unfold. intros Hrun Hle.
  eapply trial_loop_accept_mono; [exact Hrun|lia].
Qed.

Lemma trial_loop_returned asset samplers cond rng n w w' :
  trial_loop n asset samplers cond rng w = Ret tt w' ->
  exists k w1, (k < n)%nat /\
    rejected_trials asset samplers cond rng k w w1 /\
    trial asset samplers cond rng w1 = Ret false w'.
Proof.
  intros Hrun.
  destruct (trial_loop_cases asset samplers cond rng n w)
    as [(k & w1 & _ & Hrej & Hend)|(Hdiv & _)].
  - rewrite Hrun in Hend.
    destruct Hend as [[_ Heq]|[(Hlt & w2 & Hacc & Heq)|(_ & e & w2 & _ & Heq)]];
      try discriminate.
    injection Heq as <-. exists k, w1. auto.
  - rewrite Hrun in Hdiv. discriminate.
Qed.

(** X5.  A normal return means an accepted trial: if [resample_while]
    returns, some trial [k + 1 <= max_trials] followed [k] rejected ones and
    its condition was false, and the world returned is the world of that
    trial.  With a read-only condition, the condition is false in the world
    returned. *)
Theorem resample_while_returns_accepted asset samplers cond max_trials rng w w' :
  resample_while asset samplers cond (Some max_trials) rng w = Ret tt w' ->
  (exists k w1, (Z.of_nat k < max_trials)%Z /\
     rejected_trials asset samplers cond rng k w w1 /\
     trial asset samplers cond rng w1 = Ret false w') /\
  (read_only cond -> cond asset w' = Ret false w').
Proof.
  rewrite resample_while_unfold. intros Hrun.
  destruct (trial_loop_returned _ _ _ _ _ _ _ Hrun) as (k & w1 & Hk & Hrej & Hacc).
  split.
  - exists k, w1. split; [lia|]. auto.
  - intros Hro. unfold trial, bind in Hacc.
    destruct (apply_samplers samplers asset rng w1) as [[] w2|e w2|];
      try discriminate.
    destruct (Hro asset w2) as (b & Hb). rewrite Hb in Hacc.
    injection Hacc as -> <-. exact Hb.
Qed.

(** X6.  When no sampler and no condition raises, the only exception that
    comes out of [resample_while] is its own
    [RuntimeError("Failed to place", asset)], and it comes out only after
    exactly [max_trials] rejected trials. *)
Theorem resample_while_only_error asset samplers cond max_trials rng w e w' :
  (forall s, In s samplers -> sampler_never_raises s) ->
  condition_never_raises cond ->
  resample_while asset samplers cond (Some max_trials) rng w = Raise e w' ->
  e = RuntimeError "Failed to place" asset /\
  rejected_trials asset samplers cond rng (Z.to_nat max_trials) w w'.
Proof.
  intros Hs Hc. rewrite resample_while_unfold. intros Hrun.
  destruct (trial_loop_cases asset samplers cond rng (Z.to_nat max_trials) w)
    as [(k & w1 & _ & Hrej & Hend)|(Hdiv & _)].
  - rewrite Hrun in Hend.
    destruct Hend as [[-> Heq]|[(_ & w2 & _ & Heq)|(_ & e' & w2 & Hraise & _)]].
    + injection Heq as -> ->. auto.
    + discriminate.
    + exfalso. exact (trial_never_raises _ _ _ _ _ _ _ Hs Hc Hraise).
  - rewrite Hrun in Hdiv. discriminate.
Qed.

Lemma rejected_trials_still asset cond rng w n :
  cond asset w = Ret true w ->
  rejected_trials asset [] cond rng n w w.
Proof.
  intros Hc. induction n as [|n IH]; [constructor|].
  econstructor; [|exact IH]. unfold trial, bind. cbn. exact Hc.
Qed.

(** X7.  With an empty sampler list nothing is ever mutated and a read-only
    condition decides at once: if it holds of the initial world,
    [resample_while] raises in that same world whatever the budget; if it
    does not and [max_trials >= 1], [resample_while] returns that same
    world. *)
Theorem resample_while_no_samplers asset cond max_trials rng w :
  (cond asset w = Ret true w ->
   resample_while asset [] cond (Some max_trials) rng w =
   Raise (RuntimeError "Failed to place" asset) w) /\
  (cond asset w = Ret false w -> (1 <= max_trials)%Z ->
   resample_while asset [] cond (Some max_trials) rng w = Ret tt w).
Proof.
  rewrite resample_while_unfold. split.
  - intros Hc.
    rewrite <- (Nat.add_0_r (Z.to_nat max_trials)).
    rewrite (trial_loop_rejected _ _ _ _ _ _ _
               (rejected_trials_still asset cond rng w _ Hc)).
    reflexivity.
  - intros Hc Hmax.
    destruct (Z.to_nat max_trials) as [|n] eqn:Hn; [lia|].
    rewrite trial_loop_step. unfold trial, bind. cbn. rewrite Hc. reflexivity.
Qed.

End ResampleWhileMore.

Lemma resample_while_sampler_raises_witness :
  resample_while 7%nat
    ([Logged.log_sampler 0] ++ MoreScenes.broken_sampler :: [Logged.stuck_sampler])
    Logged.failing (Some 3%Z) tt [] =
  Raise (ValueError "broken") [0]%nat.
Proof.
  apply (resample_while_sampler_raises _ _ _ _ _ _ _ 0%nat [] [] [0]%nat).
  - apply rejected_none.
  - lia.
  - reflexivity.
  - reflexivity.
Defined.

Lemma resample_while_condition_raises_witness :
  resample_while 7%nat [Logged.log_sampler 0; Logged.log_sampler 1]
    Logged.failing (Some 3%Z) tt [] =
  Raise (TypeError "not callable") [0; 1]%nat.
Proof.
  apply (resample_while_condition_raises _ _ _ _ _ 0%nat [] [] [0; 1]%nat).
  - apply rejected_none.
  - lia.
  - reflexivity.
  - reflexivity.
Defined.

Lemma resample_while_budget_monotone_witness :
  resample_while 7%nat [Logged.log_sampler 0; Logged.log_sampler 1]
    (Logged.until_calls 6) (Some 100%Z) tt [] =
  Ret tt [0; 1; 0; 1; 0; 1]%nat.
Proof.
  apply (resample_while_budget_monotone _ _ _ _ 3%Z 100%Z).
  - reflexivity.
  - lia.
Defined.

Lemma resample_while_returns_accepted_witness :
  Logged.until_calls 6 7%nat [0; 1; 0; 1; 0; 1]%nat =
  Ret false [0; 1; 0; 1; 0; 1]%nat.
Proof.
  apply (resample_while_returns_accepted 7%nat
           [Logged.log_sampler 0; Logged.log_sampler 1]
           (Logged.until_calls 6) 5%Z tt []).
  - reflexivity.
  - intros a w. eexists. reflexivity.
Defined.

Lemma resample_while_only_error_witness :
  RuntimeError "Failed to place" 7%nat = RuntimeError "Failed to place" 7%nat /\
  rejected_trials 7%nat [Logged.log_sampler 0] Logged.always tt
    (Z.to_nat 2) [] [0; 0]%nat.
Proof.
  apply (resample_while_only_error 7%nat [Logged.log_sampler 0]
           Logged.always 2%Z tt []).
  - intros s [<-|[]] a r w e w'. discriminate.
  - intros a w e w'. discriminate.
  - reflexivity.
Defined.

Lemma resample_while_no_samplers_witness :
  resample_while 7%nat [] Logged.always (Some 4%Z) tt [3]%nat =
    Raise (RuntimeError "Failed to place" 7%nat) [3]%nat /\
  resample_while 7%nat [] (Logged.until_calls 1) (Some 4%Z) tt [3]%nat =
    Ret tt [3]%nat.
Proof.
  split.
  - apply resample_while_no_samplers. reflexivity.
  - apply resample_while_no_samplers; [reflexivity|lia].
Defined.

(** ** Further properties of [random_rotation] *)

Section RandomRotationMore.

Context {Sim : Type} {mathutils : Mathutils}.
Implicit Types (rng : rng_ref) (fuel : nat) (wd : Scene Sim).

Lemma disk_loop_no_raise fuel : forall rng xyz wd e wd',
  disk_loop fuel rng xyz wd <> Raise e wd'.
Proof.
  induction fuel as [|fuel IH]; intros rng [[x y] z] wd e wd';
    destruct (Rgt_dec z 1) as [Hz|Hz];
    try (rewrite disk_loop_exit by assumption; discriminate).
  - rewrite disk_loop_out_of_fuel by assumption. discriminate.
  - rewrite disk_loop_step by assumption.
    destruct (uniform_size2_spec rng wd) as (wd1 & -> & _).
    destruct (pair_at (generators wd rng) 0) as [x' y']. apply IH.
Qed.



(** X9.  The points are drawn from [0, 1) x [0, 1), so the quaternion that
    [random_rotation(axis=None)] returns has its four components
    non-negative (the first two below 1): when the two loops accept, the
    second accepted point not being the origin, the tuple returned is
    [(x, y, s*u, s*v)] and none of its components is negative. *)
Theorem random_rotation_nonnegative fuel rng wd k1 k2 :
  let g := generators wd rng in
  let g1 := skip (2 * S k1) g in
  let x := fst (pair_at g k1) in
  let y := snd (pair_at g k1) in
  let u := fst (pair_at g1 k2) in
  let v := snd (pair_at g1 k2) in
  let s := sqrt ((1 - (x * x + y * y)) / (u * u + v * v)) in
  unit_draws g ->
  first_in_disk g k1 ->
  first_in_disk g1 k2 ->
  (k1 < fuel)%nat ->
  (k2 < fuel)%nat ->
  u * u + v * v <> 0 ->
  exists wd',
    random_rotation fuel None rng wd = Ret (x, y, s * u, s * v) wd' /\
    0 <= x < 1 /\ 0 <= y < 1 /\ 0 <= s * u /\ 0 <= s * v.
Proof.
  intros g g1 x y u v s Hdraws H1 H2 Hk1 Hk2 _.
  destruct (random_rotation_run fuel rng wd k1 k2 H1 H2 Hk1 Hk2)
    as (wd' & Hrun & _).
  exists wd'. split; [exact Hrun|].
  unfold x, y, u, v, g1, pair_at, skip; cbn [fst snd stream cursor].
  repeat split; try apply Hdraws;
    (apply Rmult_le_pos; [apply sqrt_pos|apply Hdraws]).
Qed.

(** X10.  For the names "Y" and "Z", in any letter case, and for an explicit
    axis, [random_rotation] consumes exactly one draw [u], hands the basis
    vector (0,1,0), (0,0,1), or the explicit axis unchanged, to
    [mathutils.Quaternion] together with the angle [2 * pi * u], which lies
    in [0, 2*pi); its outcome is the constructor's. *)
Theorem random_rotation_about_axis fuel rng wd a v :
  let u := stream (generators wd rng) (cursor (generators wd rng)) in
  let angle := 2 * PI * u in
  axis_resolves a v ->
  unit_draws (generators wd rng) ->
  0 <= angle < 2 * PI /\
  exists wd',
    draws rng 1 wd wd' /\
    random_rotation fuel (Some a) rng wd =
    match Quaternion_axis_angle (PyTuple v) angle with
    | inl e => Raise e wd'
    | inr q => Ret q wd'
    end.
Proof.
  intros u angle Hres Hdraws. split.
  - pose proof (Hdraws (cursor (generators wd rng))) as Hr. fold u in Hr.
    pose proof PI_RGT_0 as Hpi. unfold angle. split; nra.
  - destruct (uniform_spec rng 0 (2 * PI) wd two_pi_range) as (wd1 & Hu & Hd).
    exists wd1. split; [exact Hd|].
    assert (Hax : resolve_axis (Sim := Sim) a wd = Ret (PyTuple v) wd).
    { destruct Hres as [(s & -> & Hup & ->)|[(s & -> & Hup & ->)| ->]];
        cbn [resolve_axis]; rewrite ?Hup; reflexivity. }
    unfold random_rotation, bind. rewrite Hax, Hu. fold u.
    replace (0 + (2 * PI - 0) * u) with angle by (unfold angle; ring).
    destruct (Quaternion_axis_angle _ _); reflexivity.
Qed.

End RandomRotationMore.

Lemma random_rotation_nonnegative_witness :
  let s := sqrt ((1 - (1/2 * (1/2) + 1/2 * (1/2))) / (3/5 * (3/5) + 4/5 * (4/5))) in
  exists wd',
    random_rotation 2 None 0%nat (Scenes.scene_with Scenes.three_pairs) =
      Ret (1/2, 1/2, s * (3/5), s * (4/5)) wd' /\
    0 <= s * (3/5) /\ 0 <= s * (4/5).
Proof.
  intros s.
  destruct (random_rotation_nonnegative 2 0%nat
              (Scenes.scene_with Scenes.three_pairs) 1 0)
    as (wd' & Hrun & _ & _ & Hc & Hd).
  - intros n. cbn. destruct n as [|[|[|[|[|n]]]]]; lra.
  - split.
    + intros j Hj. assert (j = 0%nat) as -> by lia.
      unfold in_disk, pair_at; cbn. lra.
    + unfold in_disk, pair_at; cbn. lra.
  - split.
    + intros j Hj. lia.
    + unfold in_disk, pair_at; cbn. lra.
  - lia.
  - lia.
  - unfold pair_at; cbn. lra.
  - exists wd'. split; [exact Hrun|]. split; [exact Hc|exact Hd].
Defined.

Lemma random_rotation_about_axis_witness :
  0 <= 2 * PI * (1/4) < 2 * PI /\
  exists wd',
    random_rotation 0 (Some (PyStr "z")) 0%nat
      (Scenes.scene_with Scenes.quarter_generator) =
    match Quaternion_axis_angle (PyTuple [0; 0; 1]) (2 * PI * (1/4)) with
    | inl e => Raise e wd'
    | inr q => Ret q wd'
    end.
Proof.
  destruct (random_rotation_about_axis 0 0%nat
              (Scenes.scene_with Scenes.quarter_generator)
              (PyStr "z") [0; 0; 1])
    as (Hangle & wd' & _ & Hrun).
  - right; left. exists "z"%string. repeat split.
  - intros n. cbn. lra.
  - split; [exact Hangle|]. exists wd'. exact Hrun.
Defined.

(** ** Further properties of the samplers *)




Section SamplerMore.

Context {Sim : Type} {mathutils : Mathutils}.
Implicit Types (rng : rng_ref) (obj : obj_ref) (fuel : nat) (wd : Scene Sim).


(** X12.  For an orientation that rotates nothing, the rotated bounds are
    the object's own bounds, put in order axis by axis; they are the bounds
    themselves when the minimum corner is below the maximum corner. *)
Theorem rotated_bounds_unrotated (o : PhysicalObject) :
  (forall x, Vector_rotate (quaternion o) x = x) ->
  rotated_bounds o =
    (vec3_min (fst (bounds o)) (snd (bounds o)),
     vec3_max (fst (bounds o)) (snd (bounds o))) /\
  (vec3_le (fst (bounds o)) (snd (bounds o)) -> rotated_bounds o = bounds o).
Proof.
  intros Hrot. unfold rotated_bounds, rotated_corners.
  destruct (bounds o) as [[[x0 y0] z0] [[x1 y1] z1]].
  cbn [corners product3 flat_map map app]. rewrite !Hrot.
  cbn [fold_left vec3_min vec3_max fst snd vec3_le].
  assert (Hgoal :
    forall x0 y0 z0 x1 y1 z1 : R,
      (Rmin (Rmin (Rmin (Rmin (Rmin (Rmin (Rmin x0 x0) x0) x0) x1) x1) x1) x1,
       Rmin (Rmin (Rmin (Rmin (Rmin (Rmin (Rmin y0 y0) y1) y1) y0) y0) y1) y1,
       Rmin (Rmin (Rmin (Rmin (Rmin (Rmin (Rmin z0 z1) z0) z1) z0) z1) z0) z1,
       (Rmax (Rmax (Rmax (Rmax (Rmax (Rmax (Rmax x0 x0) x0) x0) x1) x1) x1) x1,
        Rmax (Rmax (Rmax (Rmax (Rmax (Rmax (Rmax y0 y0) y1) y1) y0) y0) y1) y1,
        Rmax (Rmax (Rmax (Rmax (Rmax (Rmax (Rmax z0 z1) z0) z1) z0) z1) z0) z1))
      = (Rmin x0 x1, Rmin y0 y1, Rmin z0 z1, (Rmax x0 x1, Rmax y0 y1, Rmax z0 z1))).
  { clear. intros.
    destruct (Rle_dec x0 x1), (Rle_dec y0 y1), (Rle_dec z0 z1);
      repeat match goal with
      | |- context [Rmin ?a ?b] =>
          first [rewrite (Rmin_left a b) by lra | rewrite (Rmin_right a b) by lra]
      | |- context [Rmax ?a ?b] =>
          first [rewrite (Rmax_left a b) by lra | rewrite (Rmax_right a b) by lra]
      end; reflexivity. }
  split.
  - apply Hgoal.
  - intros (Hx & Hy & Hz). rewrite Hgoal.
    rewrite !Rmin_left, !Rmax_right by assumption. reflexivity.
Qed.

(** X13.  The outcome of [position_sampler] does not depend on the position
    the object had before.  Started on the same object at another position
    [p0], the call returns exactly when the first call returns, and leaves
    the same position (the old position is overwritten); it raises exactly
    when the first call raises, with the same exception, and then each world
    is as it was, old position included. *)
Theorem position_sampler_overwrites region obj rng wd (p0 : vec3) :
  let wd0 := set_object obj (with_position (objects wd obj) p0) wd in
  match position_sampler region obj rng wd,
        position_sampler region obj rng wd0 with
  | Ret _ wd1, Ret _ wd2 =>
      position (objects wd1 obj) = position (objects wd2 obj)
  | Raise e1 wd1, Raise e2 wd2 => e1 = e2 /\ wd1 = wd /\ wd2 = wd0
  | _, _ => False
  end.
Proof.
  intros wd0.
  assert (Hsame : extent_fits region (objects wd obj) <->
                  extent_fits region (objects wd0 obj)).
  { unfold wd0. cbn [objects set_object]. rewrite upd_same.
    split; apply extent_fits_cong; reflexivity. }
  destruct (extent_fits_dec region (objects wd obj)) as [Hfits|Hnot].
  - pose proof (proj1 Hsame Hfits) as Hfits0.
    destruct (position_sampler_run region obj rng wd Hfits) as (wd3 & _ & ->).
    destruct (position_sampler_run region obj rng wd0 Hfits0) as (wd4 & _ & ->).
    unfold wd0. cbn [objects set_object generators]. rewrite !upd_same.
    reflexivity.
  - assert (Hnot0 : ~ extent_fits region (objects wd0 obj)) by tauto.
    rewrite (position_sampler_refused region obj rng wd Hnot).
    rewrite (position_sampler_refused region obj rng wd0 Hnot0). auto.
Qed.

Lemma advances_only_draws rng wd wd' :
  advances rng wd wd' -> only_draws_from rng wd wd'.
Proof.
  intros (n & Hg & Ho & _ & Hs). split; [exists n; exact Hg|]. auto.
Qed.

(** X14.  The two samplers use nothing but the generator they are given:
    after a call that returned or raised, that generator has moved on by some
    number of draws (its sequence is unchanged), every other generator and
    the simulator state are as they were. *)
Theorem samplers_only_draw fuel axis region obj rng wd :
  called (only_draws_from rng) wd (rotation_sampler fuel axis obj rng wd) /\
  called (only_draws_from rng) wd (position_sampler region obj rng wd).
Proof.
  split.
  - unfold rotation_sampler, bind.
    pose proof (random_rotation_advances fuel axis rng wd) as Hadv.
    destruct (random_rotation fuel axis rng wd) as [q wd1|e wd1|];
      cbn in Hadv |- *; try exact I.
    + apply advances_only_draws in Hadv. exact Hadv.
    + apply advances_only_draws. exact Hadv.
  - destruct (extent_fits_dec region (objects wd obj)) as [Hfits|Hnot].
    + destruct (position_sampler_run region obj rng wd Hfits) as (wd3 & Hd & ->).
      cbn. apply (advances_only_draws rng wd wd3). exists 3%nat. exact Hd.
    + rewrite (position_sampler_refused region obj rng wd Hnot). cbn.
      apply advances_only_draws, advances_refl.
Qed.

End SamplerMore.

Section ColorFacts.

Context {Sim : Type} {Color : Type}.
Variable from_hsv : R -> R -> R -> Color.

(** X15.  [random_hue_color] consumes exactly one draw [h] and uses it as the
    hue: the colour returned is [from_hsv(h, saturation, value)], with
    saturation and value as given, 1 when omitted; [h] lies in [0, 1) and
    nothing else in the world changes. *)
Theorem random_hue_color_hue saturation value rng (wd : Scene Sim) :
  let h := stream (generators wd rng) (cursor (generators wd rng)) in
  unit_draws (generators wd rng) ->
  0 <= h < 1 /\
  exists wd',
    random_hue_color from_hsv saturation value rng wd =
      Ret (from_hsv h (or_default saturation 1) (or_default value 1)) wd' /\
    random_hue_color from_hsv None None rng wd = Ret (from_hsv h 1 1) wd' /\
    draws rng 1 wd wd'.
Proof.
  intros h Hdraws. split; [apply Hdraws|].
  destruct (uniform_spec rng 0 1 wd ltac:(lra)) as (wd1 & Hu & Hd).
  exists wd1.
  unfold random_hue_color, bind. rewrite Hu, std_uniform.
  repeat split; try reflexivity; apply Hd.
Qed.

End ColorFacts.

Lemma rotated_bounds_unrotated_witness :
  rotated_bounds Scenes.unit_cube = bounds Scenes.unit_cube.
Proof.
  apply rotated_bounds_unrotated.
  - intros x. apply rotate_identity.
  - cbn. lra.
Defined.

Lemma random_hue_color_hue_witness :
  exists wd',
    random_hue_color (fun h s v => (h, s, v)) None (Some (1/2)) 0%nat
      (Scenes.scene_with Scenes.quarter_generator) = Ret (1/4, 1, 1/2) wd'.
Proof.
  destruct (random_hue_color_hue (fun h s v => (h, s, v)) None (Some (1/2))
              0%nat (Scenes.scene_with Scenes.quarter_generator))
    as (_ & wd' & Hrun & _).
  - intros n. cbn. lra.
  - exists wd'. exact Hrun.
Defined.

(** ** What [move_until_no_overlap] leaves behind *)


Section Placement.

Context {Sim : Type} {mathutils : Mathutils}.
Implicit Types (rng : rng_ref) (obj : obj_ref) (fuel : nat) (wd : Scene Sim).





End Placement.





(** ** Invariants and the failure path *)

Section Invariants.

Context {World Asset Rng : Type}.
Implicit Types (asset : Asset) (rng : Rng) (w : World).
Implicit Types (samplers : list (sampler World Asset Rng)).
Implicit Types (cond : condition World Asset).

Lemma apply_samplers_lands (Inv : World -> Prop) samplers asset rng :
  (forall s, In s samplers -> forall a r w, Inv w -> lands Inv (s a r w)) ->
  forall w, Inv w -> lands Inv (apply_samplers samplers asset rng w).
Proof.
  induction samplers as [|s rest IH]; intros Hs w Hw.
  - exact Hw.
  - cbn [apply_samplers]. unfold bind.
    pose proof (Hs s (or_introl eq_refl) asset rng w Hw) as H1.
    destruct (s asset rng w) as [[] w1|e w1|]; cbn in H1 |- *; try assumption.
    apply IH; [|exact H1]. intros s' Hin. apply Hs. now right.
Qed.

(** X17.  [resample_while] keeps every invariant that its samplers and its
    condition keep: if each call of a sampler and of the condition, started
    in a world satisfying [Inv], leaves such a world (on return and on
    raise), then so does [resample_while]. *)
Theorem resample_while_keeps_invariant (Inv : World -> Prop)
  asset samplers cond max_trials rng w :
  (forall s, In s samplers -> forall a r w0, Inv w0 -> lands Inv (s a r w0)) ->
  (forall a w0, Inv w0 -> lands Inv (cond a w0)) ->
  Inv w ->
  lands Inv (resample_while asset samplers cond (Some max_trials) rng w).
Proof.
  intros Hs Hc. rewrite resample_while_unfold.
  generalize (Z.to_nat max_trials) as n. intros n. revert w.
  induction n as [|n IH]; intros w Hw.
  - exact Hw.
  - rewrite trial_loop_step. unfold trial, bind.
    pose proof (apply_samplers_lands Inv samplers asset rng Hs w Hw) as H1.
    destruct (apply_samplers samplers asset rng w) as [[] w1|e w1|];
      cbn in H1 |- *; try assumption.
    pose proof (Hc asset w1 H1) as H2.
    destruct (cond asset w1) as [[|] w2|e w2|]; cbn in H2 |- *; try assumption.
    apply IH. exact H2.
Qed.

End Invariants.

Section FailurePath.

Context {Sim : Type} {mathutils : Mathutils}.
Implicit Types (rng : rng_ref) (obj : obj_ref) (fuel : nat) (wd : Scene Sim).

Lemma rotation_sampler_none_never_raises fuel :
  sampler_never_raises (rotation_sampler (Sim := Sim) fuel None).
Proof.
  intros a r w e w'. unfold rotation_sampler, random_rotation, bind.
  destruct (disk_loop fuel r (0, 0, 2) w) as [[[x y] z] w1|e1 w1|] eqn:H1.
  - destruct (disk_loop fuel r (0, 0, 2) w1) as [[[u v] ww] w2|e2 w2|] eqn:H2.
    + unfold ret, set_quaternion. discriminate.
    + exfalso. exact (disk_loop_no_raise _ _ _ _ _ _ H2).
    + discriminate.
  - exfalso. exact (disk_loop_no_raise _ _ _ _ _ _ H1).
  - discriminate.
Qed.




End FailurePath.

Lemma resample_while_keeps_invariant_witness :
  lands (fun w => Forall (fun i => i < 2)%nat w)
    (resample_while 7%nat [Logged.log_sampler 0; Logged.log_sampler 1]
       Logged.always (Some 3%Z) tt []).
Proof.
  apply resample_while_keeps_invariant.
  - intros s [<-|[<-|[]]] a r w0 Hw; cbn; apply Forall_app;
      (split; [exact Hw|repeat constructor]).
  - intros a w0 Hw. exact Hw.
  - constructor.
Defined.

